(** * Resume_builder_Backend: the resume formatter, the reply parser and the
      request handler of [app.py], embedded in Rocq.

    Python [str] values are sequences of Unicode code points; the JSON
    payload of a request is a Python value ([None], [bool], number, [str],
    [list], [dict]).  Operations that Python may abort with an exception
    return a [result]. *)

From Stdlib Require Import List NArith ZArith Bool Lia.
From Stdlib Require Ascii String DecimalString.
Import String.StringSyntax.
Delimit Scope string_scope with string.
Import ListNotations.

Set Implicit Arguments.
Set Warnings "-register-all".
Local Open Scope N_scope.

(* ================================================================== *)
(** ** Python strings *)
(* ================================================================== *)

Module PyStr.

(** A character is a Unicode code point; a [str] is a list of them. *)
Definition char := N.
Definition pystr := list char.

(** Decoder of the UTF-8 bytes of a Rocq string literal, so that program
    text can be written down as it stands in the source. *)
Fixpoint utf8_decode (bs : list N) : pystr :=
  match bs with
  | [] => []
  | b :: r =>
      if b <? 128 then b :: utf8_decode r
      else if b <? 224 then
        match r with
        | b1 :: r' => ((b - 192) * 64 + (b1 - 128)) :: utf8_decode r'
        | _ => []
        end
      else if b <? 240 then
        match r with
        | b1 :: b2 :: r' =>
            ((b - 224) * 4096 + (b1 - 128) * 64 + (b2 - 128)) :: utf8_decode r'
        | _ => []
        end
      else
        match r with
        | b1 :: b2 :: b3 :: r' =>
            ((b - 240) * 262144 + (b1 - 128) * 4096 + (b2 - 128) * 64 + (b3 - 128))
              :: utf8_decode r'
        | _ => []
        end
  end.

Definition lit (s : String.string) : pystr :=
  utf8_decode (map Ascii.N_of_ascii (String.list_ascii_of_string s)).
Arguments lit s%_string.

Definition NL : char := 10.        (* line feed *)
Definition SPACE : char := 32.     (* space *)
Definition DQUOTE : char := 34.    (* double quote *)
Definition STAR : char := 42.      (* asterisk *)
Definition HYPHEN : char := 45.    (* hyphen-minus *)
Definition BULLET : char := 8226.  (* U+2022, the bullet *)

(** [str.isspace] on one code point; it is also the class [\s] of a [str]
    pattern: U+0009-000D, U+001C-0020, U+0085, U+00A0, U+1680,
    U+2000-200A, U+2028, U+2029, U+202F, U+205F, U+3000. *)
Definition isspace (c : char) : bool :=
  ((9 <=? c) && (c <=? 13)) || ((28 <=? c) && (c <=? 32))
  || (c =? 133) || (c =? 160) || (c =? 5760)
  || ((8192 <=? c) && (c <=? 8202))
  || (c =? 8232) || (c =? 8233) || (c =? 8239) || (c =? 8287) || (c =? 12288).

Definition is_empty {A} (l : list A) : bool :=
  match l with [] => true | _ => false end.

(** Truth value of a string or a list: non-empty. *)
Definition truthy_seq {A} (l : list A) : bool := negb (is_empty l).

Fixpoint lstrip (s : pystr) : pystr :=
  match s with
  | [] => []
  | c :: t => if isspace c then lstrip t else s
  end.

Definition rstrip (s : pystr) : pystr := rev (lstrip (rev s)).

(** [s.strip()] *)
Definition strip (s : pystr) : pystr := rstrip (lstrip s).

(** [s.split('\n')]: never the empty list. *)
Fixpoint split_nl (s : pystr) : list pystr :=
  match s with
  | [] => [[]]
  | c :: t =>
      if c =? NL then [] :: split_nl t
      else match split_nl t with
           | h :: r => (c :: h) :: r
           | [] => [[c]]
           end
  end.

(** ["\n".join(items)] *)
Fixpoint join_nl (items : list pystr) : pystr :=
  match items with
  | [] => []
  | [x] => x
  | x :: rest => x ++ NL :: join_nl rest
  end.

Fixpoint eqb_str (a b : pystr) : bool :=
  match a, b with
  | [], [] => true
  | x :: a', y :: b' => (x =? y) && eqb_str a' b'
  | _, _ => false
  end.

Fixpoint is_prefix (p s : pystr) : bool :=
  match p, s with
  | [], _ => true
  | x :: p', y :: s' => (x =? y) && is_prefix p' s'
  | _ :: _, [] => false
  end.

(** [p in s] for two strings. *)
Fixpoint is_substring (p s : pystr) : bool :=
  is_prefix p s || match s with [] => false | _ :: t => is_substring p t end.

End PyStr.
Import PyStr.

(* ================================================================== *)
(** ** Outcomes of Python code *)
(* ================================================================== *)

(** The exceptions the modelled operations raise. *)
Inductive exn := IndexError | KeyError | TypeError | AttributeError.

(** A computation returns, raises, or leaves the model: [Unmodelled] is the
    outcome of [str(v)] for a float, a list or a dict, whose text (shortest
    float digits, [repr] of nested strings) is not described here. *)
Inductive result (A : Type) : Type :=
| Ok (a : A)
| Raise (e : exn)
| Unmodelled.
Arguments Ok {A} a.
Arguments Raise {A} e.
Arguments Unmodelled {A}.

Definition bind {A B} (m : result A) (k : A -> result B) : result B :=
  match m with
  | Ok a => k a
  | Raise e => Raise e
  | Unmodelled => Unmodelled
  end.

Notation "x <- m ;; k" := (bind m (fun x => k))
  (at level 61, m at next level, right associativity).

(** [l[i]] on a list. *)
Definition getitem {A} (l : list A) (i : nat) : result A :=
  match nth_error l i with
  | Some a => Ok a
  | None => Raise IndexError
  end.

(* ================================================================== *)
(** ** The regular expressions of [parse_ai_response] *)
(* ================================================================== *)

Module Re.

(** Text characters matched by the ASCII pattern literal [p] under
    [re.IGNORECASE] on [str]: the engine lowers the text character and
    compares with the lowered literal and its equivalents, so besides both
    cases of the letter, U+0130 and U+0131 match [i], U+017F matches [s] and
    U+212A matches [k].  A character that is not a letter matches itself. *)
Definition ci_class (p : char) : list char :=
  let lo := if (65 <=? p) && (p <=? 90) then p + 32 else p in
  if (97 <=? lo) && (lo <=? 122) then
    lo :: (lo - 32) ::
      (if lo =? 105 then [304; 305]
       else if lo =? 115 then [383]
       else if lo =? 107 then [8490]
       else [])
  else [p].

Definition ci_char (p c : char) : bool := existsb (N.eqb c) (ci_class p).

(** The literal [pat], matched case-insensitively at the start of [s]:
    the text after it. *)
Fixpoint match_literal_ci (pat s : pystr) : option pystr :=
  match pat with
  | [] => Some s
  | p :: pat' =>
      match s with
      | [] => None
      | c :: s' => if ci_char p c then match_literal_ci pat' s' else None
      end
  end.

(** [$] without [re.MULTILINE]: at the end of the text, or before a newline
    that ends the text. *)
Definition at_dollar (s : pystr) : bool :=
  match s with
  | [] => true
  | [c] => c =? NL
  | _ => false
  end.

(** Group 1 of [(.*?)] under [re.DOTALL] followed by a zero-width
    condition [stop]: the shortest run of characters after which [stop]
    holds. *)
Fixpoint lazy_dotall (stop : pystr -> bool) (s : pystr) : option pystr :=
  if stop s then Some []
  else match s with
       | [] => None
       | c :: t => option_map (cons c) (lazy_dotall stop t)
       end.

(** [re.search]: the anchored matcher [m] tried at each position from the
    left. *)
Fixpoint re_search {A} (m : pystr -> option A) (s : pystr) : option A :=
  match m s with
  | Some r => Some r
  | None => match s with
            | [] => None
            | _ :: t => re_search m t
            end
  end.

Definition SUMMARY_MARK : pystr := lit "SUMMARY:".
Definition EXPERIENCE_MARK : pystr := lit "EXPERIENCE:".

(** Group 1 of [SUMMARY:(.*?)(?=EXPERIENCE:|$)], anchored. *)
Definition summary_re (s : pystr) : option pystr :=
  match match_literal_ci SUMMARY_MARK s with
  | Some rest =>
      lazy_dotall
        (fun q => match match_literal_ci EXPERIENCE_MARK q with
                  | Some _ => true
                  | None => at_dollar q
                  end) rest
  | None => None
  end.

(** Group 1 of [EXPERIENCE:(.*?)$], anchored. *)
Definition experience_re (s : pystr) : option pystr :=
  match match_literal_ci EXPERIENCE_MARK s with
  | Some rest => lazy_dotall at_dollar rest
  | None => None
  end.

(** [re.sub(r'^\s*•\s*', '', s)]: [^] holds at position 0 only. *)
Definition sub_leading_bullet (s : pystr) : pystr :=
  match lstrip s with
  | c :: r => if c =? BULLET then lstrip r else s
  | [] => s
  end.

(** [re.sub(r'\s+', ' ', s)]; [in_run] says that the previous character
    belonged to the run being replaced. *)
Fixpoint sub_ws_runs (in_run : bool) (s : pystr) : pystr :=
  match s with
  | [] => []
  | c :: t =>
      if isspace c then
        if in_run then sub_ws_runs true t else SPACE :: sub_ws_runs true t
      else c :: sub_ws_runs false t
  end.

Definition is_noise (c : char) : bool := (c =? STAR) || (c =? DQUOTE).

(** [re.sub] of the class of the asterisk and the double quote by the
    empty string. *)
Definition sub_noise (s : pystr) : pystr := filter (fun c => negb (is_noise c)) s.

Definition is_marker (c : char) : bool :=
  (c =? BULLET) || (c =? HYPHEN) || (c =? STAR).

(** The split pattern [\n(?=[^\s•\-*])] at the head of [c :: t]. *)
Definition split_point (c : char) (t : pystr) : bool :=
  (c =? NL) &&
  match t with
  | d :: _ => negb (isspace d || is_marker d)
  | [] => false
  end.

(** [re.split(r'\n(?=[^\s•\-*])', s)] *)
Fixpoint split_companies (s : pystr) : list pystr :=
  match s with
  | [] => [[]]
  | c :: t =>
      if split_point c t then [] :: split_companies t
      else match split_companies t with
           | h :: r => (c :: h) :: r
           | [] => [[c]]
           end
  end.

End Re.
Import Re.

(* ================================================================== *)
(** ** [parse_ai_response] *)
(* ================================================================== *)

Record experience := { company : pystr; bulletPoints : list pystr }.

Record tailored := { summary : pystr; workExperience : list experience }.

(** [line.startswith('•') or line.startswith('-') or line.startswith('*')] *)
Definition startswith_marker (line : pystr) : bool :=
  match line with
  | c :: _ => is_marker c
  | [] => false
  end.

(** The loop over [lines[1:]] that fills [bullet_points]. *)
Fixpoint collect_bullets (lines : list pystr) : list pystr :=
  match lines with
  | [] => []
  | line :: rest =>
      let line := strip line in
      if startswith_marker line then
        let point := strip (skipn 1 line) in
        if truthy_seq point then point :: collect_bullets rest
        else collect_bullets rest
      else collect_bullets rest
  end.

(** The loop over [company_sections]; [acc] is [result['workExperience']]. *)
Fixpoint for_sections (sections : list pystr) (acc : list experience)
  : result (list experience) :=
  match sections with
  | [] => Ok acc
  | section :: rest =>
      if negb (truthy_seq (strip section)) then for_sections rest acc
      else
        let lines := split_nl (strip section) in
        if negb (truthy_seq lines) then for_sections rest acc
        else
          l0 <- getitem lines 0 ;;
          let company_name := strip l0 in
          let bullet_points := collect_bullets (skipn 1 lines) in
          if truthy_seq company_name && truthy_seq bullet_points then
            for_sections rest
              (acc ++ [{| company := company_name;
                          bulletPoints := firstn 4 bullet_points |}])
          else for_sections rest acc
  end.

(** Lines 233-239: the summary after its clean-up. *)
Definition extract_summary (ai_response : pystr) : pystr :=
  match re_search summary_re ai_response with
  | Some g1 =>
      let summary_text := strip g1 in
      let summary_text := sub_leading_bullet summary_text in
      sub_ws_runs false summary_text
  | None => []
  end.

(** Lines 242-272: the entries collected from the experience section. *)
Definition extract_experience (ai_response : pystr) : result (list experience) :=
  match re_search experience_re ai_response with
  | Some g1 =>
      let experience_text := strip g1 in
      let company_sections := split_companies experience_text in
      for_sections company_sections []
  | None => Ok []
  end.

(** Lines 274-277: the last pass over the summary and the bullet points. *)
Definition remove_special (r : tailored) : tailored :=
  {| summary := sub_noise (summary r);
     workExperience :=
       map (fun exp => {| company := company exp;
                          bulletPoints := map sub_noise (bulletPoints exp) |})
           (workExperience r) |}.

Definition parse_ai_response (ai_response : pystr) : result tailored :=
  let summary_text := extract_summary ai_response in
  work <- extract_experience ai_response ;;
  Ok (remove_special {| summary := summary_text; workExperience := work |}).

(* ================================================================== *)
(** ** Python values of a JSON payload *)
(* ================================================================== *)

(** What [request.json] yields.  A [dict] is kept as its items in insertion
    order; a float is seen through its truth value only, the one thing the
    program looks at besides its text. *)
Inductive pyval : Type :=
| PNone
| PBool (b : bool)
| PInt (z : Z)
| PFloat (nonzero : bool)
| PStr (s : pystr)
| PList (l : list pyval)
| PDict (d : list (pystr * pyval)).

Module Py.

Fixpoint lookup (k : pystr) (d : list (pystr * pyval)) : option pyval :=
  match d with
  | [] => None
  | (k', v) :: d' => if eqb_str k k' then Some v else lookup k d'
  end.

Definition is_some {A} (o : option A) : bool :=
  match o with Some _ => true | None => false end.

(** [bool(v)] *)
Definition truthy (v : pyval) : bool :=
  match v with
  | PNone => false
  | PBool b => b
  | PInt z => negb (Z.eqb z 0)
  | PFloat nonzero => nonzero
  | PStr s => truthy_seq s
  | PList l => truthy_seq l
  | PDict d => truthy_seq d
  end.

(** [k in v] for a string [k]: a key of a dict, an element of a list, a
    substring of a string; other values are not containers. *)
Definition contains (k : pystr) (v : pyval) : result bool :=
  match v with
  | PDict d => Ok (is_some (lookup k d))
  | PList l =>
      Ok (existsb (fun x => match x with PStr s => eqb_str k s | _ => false end) l)
  | PStr s => Ok (is_substring k s)
  | _ => Raise TypeError
  end.

(** [v[k]] for a string [k]. *)
Definition subscript (v : pyval) (k : pystr) : result pyval :=
  match v with
  | PDict d => match lookup k d with
               | Some x => Ok x
               | None => Raise KeyError
               end
  | _ => Raise TypeError
  end.

(** [v.get(k, default)]: only a dict has the method. *)
Definition get (v : pyval) (k : pystr) (default : pyval) : result pyval :=
  match v with
  | PDict d => Ok (match lookup k d with Some x => x | None => default end)
  | _ => Raise AttributeError
  end.

(** The items a [for] loop over [v] visits. *)
Definition iter (v : pyval) : result (list pyval) :=
  match v with
  | PList l => Ok l
  | PStr s => Ok (map (fun c => PStr [c]) s)
  | PDict d => Ok (map (fun kv => PStr (fst kv)) d)
  | _ => Raise TypeError
  end.

(** [str(v)], the text an f-string puts for [{v}]. *)
Definition str (v : pyval) : result pystr :=
  match v with
  | PStr s => Ok s
  | PNone => Ok (lit "None")
  | PBool true => Ok (lit "True")
  | PBool false => Ok (lit "False")
  | PInt z => Ok (lit (DecimalString.NilZero.string_of_int (Z.to_int z)))
  | PFloat _ | PList _ | PDict _ => Unmodelled
  end.

End Py.

(* ================================================================== *)
(** ** [format_resume_for_ai] *)
(* ================================================================== *)

Definition NA : pyval := PStr (lit "N/A").

(** [f"<label>{obj.get(key, 'N/A')}"] *)
Definition field_line (label : pystr) (obj : pyval) (key : pystr) : result pystr :=
  v <- Py.get obj key NA ;;
  t <- Py.str v ;;
  Ok (label ++ t).

(** [for desc in ...: formatted.append(f"- {desc}")] *)
Fixpoint for_descriptions (items : list pyval) (formatted : list pystr)
  : result (list pystr) :=
  match items with
  | [] => Ok formatted
  | desc :: rest =>
      t <- Py.str desc ;;
      for_descriptions rest (formatted ++ [lit "- " ++ t])
  end.

(** [key in obj and obj[key]], as a truth value. *)
Definition present_and_truthy (key : pystr) (obj : pyval) : result bool :=
  has <- Py.contains key obj ;;
  if has then v <- Py.subscript obj key ;; Ok (Py.truthy v) else Ok false.

(** The [descriptions] block shared by the entries of the three list
    sections. *)
Definition add_descriptions (entry : pyval) (formatted : list pystr)
  : result (list pystr) :=
  cond <- present_and_truthy (lit "descriptions") entry ;;
  if cond then
    d <- Py.subscript entry (lit "descriptions") ;;
    items <- Py.iter d ;;
    for_descriptions items (formatted ++ [lit "Descriptions:"])
  else Ok formatted.

(** Lines 160-169. *)
Definition add_profile (resume_data : pyval) (formatted : list pystr)
  : result (list pystr) :=
  has <- Py.contains (lit "profile") resume_data ;;
  if has then
    profile <- Py.subscript resume_data (lit "profile") ;;
    let formatted := formatted ++ [lit "PROFILE:"] in
    l1 <- field_line (lit "Name: ") profile (lit "name") ;;
    l2 <- field_line (lit "Email: ") profile (lit "email") ;;
    l3 <- field_line (lit "Phone: ") profile (lit "phone") ;;
    l4 <- field_line (lit "Location: ") profile (lit "location") ;;
    l5 <- field_line (lit "URL: ") profile (lit "url") ;;
    l6 <- field_line (lit "Summary: ") profile (lit "summary") ;;
    Ok (formatted ++ [l1; l2; l3; l4; l5; l6; []])
  else Ok formatted.

Fixpoint for_work (exps : list pyval) (formatted : list pystr)
  : result (list pystr) :=
  match exps with
  | [] => Ok formatted
  | exp :: rest =>
      l1 <- field_line (lit "Company: ") exp (lit "company") ;;
      l2 <- field_line (lit "Job Title: ") exp (lit "jobTitle") ;;
      l3 <- field_line (lit "Date: ") exp (lit "date") ;;
      formatted <- add_descriptions exp (formatted ++ [l1; l2; l3]) ;;
      for_work rest (formatted ++ [[]])
  end.

(** Lines 172-182. *)
Definition add_work (resume_data : pyval) (formatted : list pystr)
  : result (list pystr) :=
  cond <- present_and_truthy (lit "workExperiences") resume_data ;;
  if cond then
    v <- Py.subscript resume_data (lit "workExperiences") ;;
    exps <- Py.iter v ;;
    for_work exps (formatted ++ [lit "WORK EXPERIENCE:"])
  else Ok formatted.

Fixpoint for_education (edus : list pyval) (formatted : list pystr)
  : result (list pystr) :=
  match edus with
  | [] => Ok formatted
  | edu :: rest =>
      l1 <- field_line (lit "School: ") edu (lit "school") ;;
      l2 <- field_line (lit "Degree: ") edu (lit "degree") ;;
      l3 <- field_line (lit "Date: ") edu (lit "date") ;;
      formatted <- add_descriptions edu (formatted ++ [l1; l2; l3]) ;;
      for_education rest (formatted ++ [[]])
  end.

(** Lines 185-195. *)
Definition add_education (resume_data : pyval) (formatted : list pystr)
  : result (list pystr) :=
  cond <- present_and_truthy (lit "educations") resume_data ;;
  if cond then
    v <- Py.subscript resume_data (lit "educations") ;;
    edus <- Py.iter v ;;
    for_education edus (formatted ++ [lit "EDUCATION:"])
  else Ok formatted.

Fixpoint for_featured (skills : list pyval) (formatted : list pystr)
  : result (list pystr) :=
  match skills with
  | [] => Ok formatted
  | skill :: rest =>
      s <- Py.get skill (lit "skill") PNone ;;
      if Py.truthy s then
        s' <- Py.get skill (lit "skill") PNone ;;
        t <- Py.str s' ;;
        for_featured rest (formatted ++ [lit "- " ++ t])
      else for_featured rest formatted
  end.

(** Lines 198-208. *)
Definition add_skills (resume_data : pyval) (formatted : list pystr)
  : result (list pystr) :=
  has <- Py.contains (lit "skills") resume_data ;;
  if has then
    let formatted := formatted ++ [lit "SKILLS:"] in
    skills <- Py.subscript resume_data (lit "skills") ;;
    hasf <- Py.contains (lit "featuredSkills") skills ;;
    formatted <-
      (if hasf then
         fs <- Py.subscript skills (lit "featuredSkills") ;;
         items <- Py.iter fs ;;
         for_featured items formatted
       else Ok formatted) ;;
    hasd <- Py.contains (lit "descriptions") skills ;;
    formatted <-
      (if hasd then
         ds <- Py.subscript skills (lit "descriptions") ;;
         items <- Py.iter ds ;;
         for_descriptions items formatted
       else Ok formatted) ;;
    Ok (formatted ++ [[]])
  else Ok formatted.

Fixpoint for_projects (projs : list pyval) (formatted : list pystr)
  : result (list pystr) :=
  match projs with
  | [] => Ok formatted
  | proj :: rest =>
      l1 <- field_line (lit "Project: ") proj (lit "project") ;;
      l2 <- field_line (lit "Date: ") proj (lit "date") ;;
      formatted <- add_descriptions proj (formatted ++ [l1; l2]) ;;
      for_projects rest (formatted ++ [[]])
  end.

(** Lines 211-220. *)
Definition add_projects (resume_data : pyval) (formatted : list pystr)
  : result (list pystr) :=
  cond <- present_and_truthy (lit "projects") resume_data ;;
  if cond then
    v <- Py.subscript resume_data (lit "projects") ;;
    projs <- Py.iter v ;;
    for_projects projs (formatted ++ [lit "PROJECTS:"])
  else Ok formatted.

(** The list [formatted] when the function reaches its [return]. *)
Definition format_lines (resume_data : pyval) : result (list pystr) :=
  formatted <- add_profile resume_data [] ;;
  formatted <- add_work resume_data formatted ;;
  formatted <- add_education resume_data formatted ;;
  formatted <- add_skills resume_data formatted ;;
  add_projects resume_data formatted.

Definition format_resume_for_ai (resume_data : pyval) : result pystr :=
  formatted <- format_lines resume_data ;;
  Ok (join_nl formatted).

(* ================================================================== *)
(** ** The handler of POST /api/analyze *)
(* ================================================================== *)

Module Handler.

(** The system message of the completion request. *)
Definition SYSTEM_CONTENT : pystr := lit "You are a professional resume consultant specializing in tailoring resumes to specific job descriptions. Your task is to analyze the candidate's resume and the job description to create highly tailored content that maximizes the match between the candidate's qualifications and the job requirements.

Follow these guidelines:
1. Identify keywords and skills in the job description
2. Match these with relevant experiences in the resume
3. Use industry-specific terminology from the job description
4. Quantify achievements whenever possible
5. Focus on achievements and skills that directly relate to the job requirements
6. Maintain professionalism and accuracy at all times
7. Don't fabricate experience, but optimize the wording of existing experience
8. NEVER inflate years of experience - use ONLY the timeframes and durations that appear in the original resume
9. Do NOT claim expertise or experience levels that aren't supported by the resume
10. If the job requires more experience than the candidate has, focus on relevant achievements instead of claiming that experience".

(** The three fixed parts of the user message, around [{resume_text}] and
    [{job_description}]. *)
Definition USER_HEAD : pystr := lit "
Below is a resume and a job description. Create a tailored version of the resume that highlights relevant skills and experiences matching this specific job.

---RESUME---
".

Definition USER_MIDDLE : pystr := lit "

---JOB DESCRIPTION---
".

Definition USER_TAIL : pystr := lit "

Please provide:

1. PROFESSIONAL SUMMARY (required):
   - Create a concise, powerful summary (3-4 sentences) that positions the candidate perfectly for this job
   - Highlight the most relevant skills, experience, and achievements that match the job requirements
   - Use industry-specific terminology from the job description
   - Focus on quantifiable achievements and ACTUAL years of relevant experience (do NOT inflate experience)
   - Ensure 100% accuracy - no fabrication, only optimization of existing information

2. WORK EXPERIENCE (required):
   - For each company in the original resume, create 3-4 bullet points that are specifically tailored to this job
   - Use strong action verbs at the beginning of each bullet point
   - Include specific keywords from the job description
   - Quantify achievements with metrics whenever possible (%, $, numbers)
   - Focus on accomplishments rather than responsibilities
   - Address specific requirements mentioned in the job description
   - Make sure each bullet point is relevant to the job being applied for
   - IMPORTANT: Do NOT invent new experience or inflate existing experience - stay strictly within what is presented in the original resume
   - If the job requires skills not explicitly stated in the resume, focus on transferable skills instead of claiming direct experience

Format your response exactly as follows:

SUMMARY:
[Your tailored summary here - no bullet points, just a paragraph]

EXPERIENCE:
[Company Name #1]
• [Tailored bullet point 1]
• [Tailored bullet point 2]
• [Tailored bullet point 3]
• [Tailored bullet point 4 if applicable]

[Company Name #2]
• [Tailored bullet point 1]
• [Tailored bullet point 2]
• [Tailored bullet point 3]
• [Tailored bullet point 4 if applicable]

(continue for all work experiences in the original resume)
".

(** The user message: the f-string of lines 76-124. *)
Definition user_content (resume_text job_description : pystr) : pystr :=
  USER_HEAD ++ resume_text ++ USER_MIDDLE ++ job_description ++ USER_TAIL.

(** What [openai.ChatCompletion.create] followed by
    [response.choices[0].message['content']] comes to: the reply text, an
    [openai.error.OpenAIError] with its message, or another exception.  The
    model name, the temperature and the token limit are constants of the
    call; the service is a function of the two messages. *)
Inductive completion :=
| Reply (content : pystr)
| OpenAIError (message : pystr)
| Fault (e : exn).

Definition model_api := pystr -> pystr -> completion.

(** A value of a response body. *)
Inductive field :=
| FText (s : pystr)
| FExnText (e : exn)          (* [str(e)] of a caught exception *)
| FBool (b : bool)
| FNone
| FTailored (t : tailored).

Record response := { status : Z; body : list (pystr * field) }.

Definition has_field (k : pystr) (r : response) : bool :=
  existsb (fun kv => eqb_str k (fst kv)) (body r).

(** Lines 42-45. *)
Definition no_key_response : response :=
  {| status := 500;
     body := [(lit "error", FText (lit "OpenAI API key not found. Please check your .env file."));
              (lit "details", FText (lit "Add OPENAI_API_KEY=your_key_here to your .env file"))] |}.

(** Line 50. *)
Definition bad_request_response : response :=
  {| status := 400;
     body := [(lit "error", FText (lit "Missing resume or job description data"))] |}.

(** Lines 135-138; [jsonify] without a status is a 200. *)
Definition success_response (t : tailored) : response :=
  {| status := 200;
     body := [(lit "success", FBool true); (lit "tailoredContent", FTailored t)] |}.

(** Lines 141-145. *)
Definition upstream_error_response (message : pystr) : response :=
  {| status := 500;
     body := [(lit "error", FText (lit "OpenAI API error: " ++ message));
              (lit "success", FBool false);
              (lit "tailoredContent", FNone)] |}.

(** Lines 149-153. *)
Definition failure_response (e : exn) : response :=
  {| status := 500;
     body := [(lit "error", FExnText e);
              (lit "success", FBool false);
              (lit "tailoredContent", FNone)] |}.

(** [not data or 'resume' not in data or 'jobDescription' not in data] *)
Definition missing_data (data : pyval) : result bool :=
  if negb (Py.truthy data) then Ok true
  else
    has_resume <- Py.contains (lit "resume") data ;;
    if negb has_resume then Ok true
    else
      has_job <- Py.contains (lit "jobDescription") data ;;
      Ok (negb has_job).

(** Lines 52-56 and the evaluation of the user message. *)
Definition build_prompt (data : pyval) : result pystr :=
  resume_data <- Py.subscript data (lit "resume") ;;
  job_description <- Py.subscript data (lit "jobDescription") ;;
  resume_text <- format_resume_for_ai resume_data ;;
  job_text <- Py.str job_description ;;
  Ok (user_content resume_text job_text).

(** The body of the outer [try], lines 47-145: the user messages sent to the
    model API, in order, and how the body ended. *)
Definition try_body (data : pyval) (create : model_api)
  : list pystr * result response :=
  match missing_data data with
  | Raise e => ([], Raise e)
  | Unmodelled => ([], Unmodelled)
  | Ok true => ([], Ok bad_request_response)
  | Ok false =>
      match build_prompt data with
      | Raise e => ([], Raise e)
      | Unmodelled => ([], Unmodelled)
      | Ok prompt =>
          ([prompt],
           match create SYSTEM_CONTENT prompt with
           | Reply ai_content =>
               tailored_content <- parse_ai_response ai_content ;;
               Ok (success_response tailored_content)
           | OpenAIError message => Ok (upstream_error_response message)
           | Fault e => Raise e
           end)
      end
  end.

(** [analyze_resume]: [openai_api_key] is the module-level variable read
    from the environment, [data] is [request.json].  The result pairs the
    response with the messages sent to the model API.  The function prints
    to the standard output besides; that is not kept. *)
Definition analyze_resume (openai_api_key : option pystr) (data : pyval)
  (create : model_api) : result (response * list pystr) :=
  if negb (match openai_api_key with Some k => truthy_seq k | None => false end)
  then Ok (no_key_response, [])
  else
    let (calls, outcome) := try_body data create in
    match outcome with
    | Ok r => Ok (r, calls)
    | Raise e => Ok (failure_response e, calls)
    | Unmodelled => Unmodelled
    end.

(** [home], the handler of GET /: [jsonify] without a status is a 200. *)
Definition home (openai_api_key : option pystr) : response :=
  {| status := 200;
     body := [(lit "status", FText (lit "online"));
              (lit "message", FText (lit "Resume analysis API is running"));
              (lit "api_key_configured",
               FBool (match openai_api_key with
                      | Some k => truthy_seq k
                      | None => false
                      end))] |}.

(** [check_status], the handler of HEAD and OPTIONS on /api/analyze: the
    body and the status. *)
Definition check_status : pystr * Z := ([], 200%Z).

End Handler.

(* ================================================================== *)
(** ** Vocabulary of the statements *)
(* ================================================================== *)

(** The marker [m] occurs somewhere in [s], letters compared as
    [re.IGNORECASE] compares them. *)
Fixpoint contains_ci (m s : pystr) : bool :=
  match match_literal_ci m s with
  | Some _ => true
  | None => match s with
            | [] => false
            | _ :: t => contains_ci m t
            end
  end.

(** The value of [company_sections] (empty when the experience marker is
    absent and the loop never runs). *)
Definition company_sections (ai_response : pystr) : list pystr :=
  match re_search experience_re ai_response with
  | Some g1 => split_companies (strip g1)
  | None => []
  end.

(** The values of [lines], [company_name] and [bullet_points] in the loop
    body for one section. *)
Definition section_lines (section : pystr) : list pystr := split_nl (strip section).
Definition section_company (section : pystr) : pystr :=
  strip (hd [] (section_lines section)).
Definition section_bullets (section : pystr) : list pystr :=
  collect_bullets (skipn 1 (section_lines section)).

(** What one section adds to [result['workExperience']]. *)
Definition section_entry (section : pystr) : list experience :=
  if truthy_seq (section_company section) && truthy_seq (section_bullets section)
  then [{| company := section_company section;
           bulletPoints := firstn 4 (section_bullets section) |}]
  else [].

(** A piece of text that is not empty, has no white space at either end and
    holds no line feed. *)
Definition clean (x : pystr) : bool :=
  truthy_seq x && eqb_str (strip x) x && negb (existsb (N.eqb NL) x).

(** A reply whose experience section is one company [c] followed by one
    bullet line per element of [bs], each introduced by the marker [m]. *)
Definition bullet_line (m : char) (b : pystr) : pystr := m :: SPACE :: b.

Definition company_block (m : char) (c : pystr) (bs : list pystr) : pystr :=
  c ++ concat (map (fun b => NL :: bullet_line m b) bs).

Definition experience_reply (m : char) (c : pystr) (bs : list pystr) : pystr :=
  EXPERIENCE_MARK ++ NL :: company_block m c bs.

(** The last character of a string is not white space. *)
Definition ends_nonspace (x : pystr) : Prop :=
  exists p d, x = p ++ [d] /\ isspace d = false.

(** A string without white space at its ends. *)
Definition trimmed (x : pystr) : Prop := lstrip x = x /\ rstrip x = x.

(** Neither an asterisk nor a double quote occurs in [x]. *)
Definition no_noise (x : pystr) : Prop := ~ In STAR x /\ ~ In DQUOTE x.

(** No two neighbouring characters of [x] are both white space. *)
Fixpoint no_adjacent_space (x : pystr) : bool :=
  match x with
  | [] => true
  | a :: t =>
      match t with
      | b :: _ => negb (isspace a && isspace b)
      | [] => true
      end && no_adjacent_space t
  end.

(** The five section labels, in the order of the source. *)
Definition SECTION_LABELS : list pystr :=
  [lit "PROFILE:"; lit "WORK EXPERIENCE:"; lit "EDUCATION:"; lit "SKILLS:";
   lit "PROJECTS:"].

Definition is_section_label (l : pystr) : bool :=
  existsb (eqb_str l) SECTION_LABELS.

(** The value of a top-level field of the resume, when the resume is a dict
    that has it. *)
Definition resume_field (key : pystr) (r : pyval) : option pyval :=
  match r with
  | PDict d => Py.lookup key d
  | _ => None
  end.

Definition field_present (key : pystr) (r : pyval) : bool :=
  Py.is_some (resume_field key r).

Definition field_truthy (key : pystr) (r : pyval) : bool :=
  match resume_field key r with
  | Some v => Py.truthy v
  | None => false
  end.

(** The labels the formatter emits for [r]: PROFILE and SKILLS when the
    field is there, the three list sections when the field is there and its
    value is true (a list that is not empty). *)
Definition emitted_labels (r : pyval) : list pystr :=
  (if field_present (lit "profile") r then [lit "PROFILE:"] else [])
  ++ (if field_truthy (lit "workExperiences") r then [lit "WORK EXPERIENCE:"] else [])
  ++ (if field_truthy (lit "educations") r then [lit "EDUCATION:"] else [])
  ++ (if field_present (lit "skills") r then [lit "SKILLS:"] else [])
  ++ (if field_truthy (lit "projects") r then [lit "PROJECTS:"] else []).

(** The header lines of each kind of entry: the text before the value and
    the key read with the default N/A. *)
Definition profile_fields : list (pystr * pystr) :=
  [(lit "Name: ", lit "name"); (lit "Email: ", lit "email");
   (lit "Phone: ", lit "phone"); (lit "Location: ", lit "location");
   (lit "URL: ", lit "url"); (lit "Summary: ", lit "summary")].

Definition work_fields : list (pystr * pystr) :=
  [(lit "Company: ", lit "company"); (lit "Job Title: ", lit "jobTitle");
   (lit "Date: ", lit "date")].

Definition education_fields : list (pystr * pystr) :=
  [(lit "School: ", lit "school"); (lit "Degree: ", lit "degree");
   (lit "Date: ", lit "date")].

Definition project_fields : list (pystr * pystr) :=
  [(lit "Project: ", lit "project"); (lit "Date: ", lit "date")].

(** Every entry [d] of the list [entries] that lacks a key of [fields] has
    the line of that key, with the placeholder, among [lines]. *)
Definition placeholders_for (fields : list (pystr * pystr))
  (entries : list pyval) (lines : list pystr) : Prop :=
  forall d label key,
    In (PDict d) entries -> In (label, key) fields ->
    Py.lookup key d = None -> In (label ++ lit "N/A") lines.

(** The placeholder lines of a whole resume. *)
Definition placeholders (r : pyval) (lines : list pystr) : Prop :=
  (forall p, resume_field (lit "profile") r = Some p ->
             placeholders_for profile_fields [p] lines) /\
  (forall l, resume_field (lit "workExperiences") r = Some (PList l) ->
             placeholders_for work_fields l lines) /\
  (forall l, resume_field (lit "educations") r = Some (PList l) ->
             placeholders_for education_fields l lines) /\
  (forall l, resume_field (lit "projects") r = Some (PList l) ->
             placeholders_for project_fields l lines).

(** Resumes of the documented shape.  A scalar is a value whose text is
    modelled. *)
Definition is_scalar (v : pyval) : bool :=
  match v with
  | PStr _ | PNone | PBool _ | PInt _ => true
  | _ => false
  end.

Definition scalar_field (d : list (pystr * pyval)) (key : pystr) : bool :=
  match Py.lookup key d with
  | Some v => is_scalar v
  | None => true
  end.

(** Absent, false, or a list whose elements satisfy [ok]. *)
Definition optional_list (ok : pyval -> bool) (o : option pyval) : bool :=
  match o with
  | None => true
  | Some v => negb (Py.truthy v)
              || match v with PList l => forallb ok l | _ => false end
  end.

Definition wf_entry (fields : list (pystr * pystr)) (e : pyval) : bool :=
  match e with
  | PDict d =>
      forallb (fun lk => scalar_field d (snd lk)) fields
      && optional_list is_scalar (Py.lookup (lit "descriptions") d)
  | _ => false
  end.

Definition wf_profile (o : option pyval) : bool :=
  match o with
  | None => true
  | Some (PDict p) => forallb (fun lk => scalar_field p (snd lk)) profile_fields
  | Some _ => false
  end.

Definition wf_skill (v : pyval) : bool :=
  match v with
  | PDict d =>
      match Py.lookup (lit "skill") d with
      | None => true
      | Some x => negb (Py.truthy x) || is_scalar x
      end
  | _ => false
  end.

Definition strict_list (ok : pyval -> bool) (o : option pyval) : bool :=
  match o with
  | None => true
  | Some (PList l) => forallb ok l
  | Some _ => false
  end.

Definition wf_skills (o : option pyval) : bool :=
  match o with
  | None => true
  | Some (PDict sk) =>
      strict_list wf_skill (Py.lookup (lit "featuredSkills") sk)
      && strict_list is_scalar (Py.lookup (lit "descriptions") sk)
  | Some _ => false
  end.

Definition wf_resume (r : pyval) : bool :=
  match r with
  | PDict d =>
      wf_profile (Py.lookup (lit "profile") d)
      && optional_list (wf_entry work_fields) (Py.lookup (lit "workExperiences") d)
      && optional_list (wf_entry education_fields) (Py.lookup (lit "educations") d)
      && wf_skills (Py.lookup (lit "skills") d)
      && optional_list (wf_entry project_fields) (Py.lookup (lit "projects") d)
  | _ => false
  end.

(** *** Replies with several company blocks *)

(** A company line: clean, and not opened by a bullet marker. *)
Definition header (c : pystr) : bool := clean c && negb (startswith_marker c).

(** A company line with the texts of its bullet lines. *)
Definition clean_block (cb : pystr * list pystr) : bool :=
  header (fst cb) && forallb clean (snd cb).

(** The blocks laid out as the prompt asks: a company line, its bullet
    lines, and [k] empty lines before the next company. *)
Fixpoint blocks_text (m : char) (k : nat) (blocks : list (pystr * list pystr))
  : pystr :=
  match blocks with
  | [] => []
  | cb :: rest =>
      company_block m (fst cb) (snd cb) ++
      match rest with
      | [] => []
      | _ :: _ => repeat NL k ++ NL :: blocks_text m k rest
      end
  end.

Definition experience_reply_blocks (m : char) (k : nat)
  (blocks : list (pystr * list pystr)) : pystr :=
  EXPERIENCE_MARK ++ NL :: blocks_text m k blocks.

(** The entry a block is expected to give: none without bullet lines. *)
Definition block_entry (cb : pystr * list pystr) : list experience :=
  match snd cb with
  | [] => []
  | _ :: _ => [{| company := fst cb;
                  bulletPoints := map sub_noise (firstn 4 (snd cb)) |}]
  end.

(** A summary paragraph: not empty, no white space at its ends. *)
Definition paragraph (p : pystr) : bool := truthy_seq p && eqb_str (strip p) p.

(** A whole reply in the format the prompt asks for: the summary marker,
    the paragraph, an empty line, and the experience section. *)
Definition full_reply (m : char) (k : nat) (p : pystr)
  (blocks : list (pystr * list pystr)) : pystr :=
  SUMMARY_MARK ++ NL :: p ++ NL :: NL :: experience_reply_blocks m k blocks.

(** *** Layout of the formatted sections *)

(** The text printed for a scalar. *)
Definition scalar_text (v : pyval) : pystr :=
  match Py.str v with
  | Ok t => t
  | _ => []
  end.

(** The text printed for the key of a header line. *)
Definition text_or_na (d : list (pystr * pyval)) (key : pystr) : pystr :=
  match Py.lookup key d with
  | Some v => scalar_text v
  | None => lit "N/A"
  end.

Definition description_lines (items : list pyval) : list pystr :=
  map (fun v => lit "- " ++ scalar_text v) items.

(** The descriptions of an entry: nothing unless the list is there and not
    empty. *)
Definition description_block (d : list (pystr * pyval)) : list pystr :=
  match Py.lookup (lit "descriptions") d with
  | Some (PList (x :: l)) => lit "Descriptions:" :: description_lines (x :: l)
  | _ => []
  end.

(** The lines of one entry of a list section. *)
Definition entry_layout (fields : list (pystr * pystr)) (e : pyval) : list pystr :=
  match e with
  | PDict d =>
      map (fun lk => fst lk ++ text_or_na d (snd lk)) fields
      ++ description_block d ++ [[]]
  | _ => []
  end.

(** The line of a featured skill: none when the name is missing or false. *)
Definition skill_line (e : pyval) : list pystr :=
  match e with
  | PDict d =>
      match Py.lookup (lit "skill") d with
      | Some v => if Py.truthy v then [lit "- " ++ scalar_text v] else []
      | None => []
      end
  | _ => []
  end.

Definition items_of (o : option pyval) : list pyval :=
  match o with
  | Some (PList l) => l
  | _ => []
  end.

(** The lines of each section of a resume [d], and of the whole resume. *)
Definition profile_part (d : list (pystr * pyval)) : list pystr :=
  match Py.lookup (lit "profile") d with
  | Some (PDict p) =>
      lit "PROFILE:"
        :: map (fun lk => fst lk ++ text_or_na p (snd lk)) profile_fields ++ [[]]
  | _ => []
  end.

Definition list_part (key label : pystr) (fields : list (pystr * pystr))
  (d : list (pystr * pyval)) : list pystr :=
  match Py.lookup key d with
  | Some (PList (e :: l)) => label :: flat_map (entry_layout fields) (e :: l)
  | _ => []
  end.

Definition skills_part (d : list (pystr * pyval)) : list pystr :=
  match Py.lookup (lit "skills") d with
  | Some (PDict sk) =>
      lit "SKILLS:"
        :: flat_map skill_line (items_of (Py.lookup (lit "featuredSkills") sk))
        ++ description_lines (items_of (Py.lookup (lit "descriptions") sk))
        ++ [[]]
  | _ => []
  end.

Definition resume_layout (d : list (pystr * pyval)) : list pystr :=
  profile_part d
  ++ list_part (lit "workExperiences") (lit "WORK EXPERIENCE:") work_fields d
  ++ list_part (lit "educations") (lit "EDUCATION:") education_fields d
  ++ skills_part d
  ++ list_part (lit "projects") (lit "PROJECTS:") project_fields d.

(** *** Responses *)

(** The value of a field of a response body. *)
Fixpoint assoc_field (k : pystr) (b : list (pystr * Handler.field))
  : option Handler.field :=
  match b with
  | [] => None
  | (k', v) :: b' => if eqb_str k k' then Some v else assoc_field k b'
  end.

Definition field_of (k : pystr) (r : Handler.response) : option Handler.field :=
  assoc_field k (Handler.body r).

(** [bool(openai_api_key)] *)
Definition key_configured (openai_api_key : option pystr) : bool :=
  match openai_api_key with
  | Some k => truthy_seq k
  | None => false
  end.

(** A JSON number or boolean. *)
Definition is_number (v : pyval) : bool :=
  match v with
  | PBool _ | PInt _ | PFloat _ => true
  | _ => false
  end.

(** The ways [analyze_resume] returns. *)
Inductive analyze_case (key : option pystr) (data : pyval) (create : Handler.model_api)
  : Handler.response -> list pystr -> Prop :=
| NoKey :
    key_configured key = false ->
    analyze_case key data create Handler.no_key_response []
| BadRequest :
    key_configured key = true -> Handler.missing_data data = Ok true ->
    analyze_case key data create Handler.bad_request_response []
| BodyFault e :
    key_configured key = true -> Handler.missing_data data = Raise e ->
    analyze_case key data create (Handler.failure_response e) []
| PromptFault e :
    key_configured key = true -> Handler.missing_data data = Ok false ->
    Handler.build_prompt data = Raise e ->
    analyze_case key data create (Handler.failure_response e) []
| Success prompt content t :
    key_configured key = true -> Handler.missing_data data = Ok false ->
    Handler.build_prompt data = Ok prompt ->
    create Handler.SYSTEM_CONTENT prompt = Handler.Reply content ->
    parse_ai_response content = Ok t ->
    analyze_case key data create (Handler.success_response t) [prompt]
| Upstream prompt message :
    key_configured key = true -> Handler.missing_data data = Ok false ->
    Handler.build_prompt data = Ok prompt ->
    create Handler.SYSTEM_CONTENT prompt = Handler.OpenAIError message ->
    analyze_case key data create (Handler.upstream_error_response message) [prompt]
| CallFault prompt e :
    key_configured key = true -> Handler.missing_data data = Ok false ->
    Handler.build_prompt data = Ok prompt ->
    create Handler.SYSTEM_CONTENT prompt = Handler.Fault e ->
    analyze_case key data create (Handler.failure_response e) [prompt].

(* ================================================================== *)
(** * Properties of the parser *)
(* ================================================================== *)

Ltac case_if :=
  match goal with
  | |- context [if ?b then _ else _] => destruct b eqn:?
  end.

Section StringFacts.

Lemma truthy_seq_true {A} (l : list A) : truthy_seq l = true <-> l <> [].
Proof. destruct l; cbn; split; intros; congruence. Qed.

Lemma truthy_seq_false {A} (l : list A) : truthy_seq l = false <-> l = [].
Proof. destruct l; cbn; split; intros; congruence. Qed.

Lemma split_nl_nonempty s : split_nl s <> [].
Proof.
  destruct s as [|c t]; simpl; [discriminate|].
  case_if; [discriminate|].
  destruct (split_nl t); discriminate.
Qed.

Lemma split_companies_nonempty s : split_companies s <> [].
Proof.
  destruct s as [|c t]; simpl; [discriminate|].
  case_if; [discriminate|].
  destruct (split_companies t); discriminate.
Qed.

(** [lstrip] removes a run of white space from the front. *)
Lemma lstrip_decompose s :
  exists w, s = w ++ lstrip s /\ forallb isspace w = true.
Proof.
  induction s as [|c t [w [E W]]]; simpl.
  - exists []; auto.
  - destruct (isspace c) eqn:C.
    + exists (c :: w); simpl. rewrite C, W. split; [congruence|reflexivity].
    + exists []; auto.
Qed.

Lemma lstrip_head s c t : lstrip s = c :: t -> isspace c = false.
Proof.
  induction s as [|a s IH]; simpl; [discriminate|].
  destruct (isspace a) eqn:A; intros E; [auto|congruence].
Qed.

Lemma lstrip_fix c t : isspace c = false -> lstrip (c :: t) = c :: t.
Proof. intros H; simpl; now rewrite H. Qed.

Lemma lstrip_idem s : lstrip (lstrip s) = lstrip s.
Proof.
  destruct (lstrip s) as [|c t] eqn:E; [reflexivity|].
  apply lstrip_fix; eapply lstrip_head; eauto.
Qed.

Lemma lstrip_space c t : isspace c = true -> lstrip (c :: t) = lstrip t.
Proof. intros H; simpl; now rewrite H. Qed.

(** [rstrip] keeps a prefix. *)
Lemma rstrip_decompose s :
  exists w, s = rstrip s ++ w /\ forallb isspace w = true.
Proof.
  unfold rstrip. destruct (lstrip_decompose (rev s)) as [w [E W]].
  exists (rev w). split.
  - rewrite <- rev_app_distr, <- E. now rewrite rev_involutive.
  - rewrite forallb_forall in *. intros x Hx. apply W. now apply in_rev.
Qed.

Lemma rstrip_snoc_fix p c : isspace c = false -> rstrip (p ++ [c]) = p ++ [c].
Proof.
  intros H. unfold rstrip. rewrite rev_app_distr. simpl. rewrite H.
  simpl. now rewrite rev_involutive.
Qed.

(** A right-trimmed string is empty or ends in a character that is not
    white space. *)
Lemma rstrip_last s :
  rstrip s = [] \/ exists p c, rstrip s = p ++ [c] /\ isspace c = false.
Proof.
  unfold rstrip. destruct (lstrip (rev s)) as [|c t] eqn:E.
  - now left.
  - right. exists (rev t), c. split; [reflexivity|].
    eapply lstrip_head; eauto.
Qed.

Lemma rstrip_idem s : rstrip (rstrip s) = rstrip s.
Proof.
  destruct (rstrip_last s) as [E | [p [c [E C]]]]; rewrite E.
  - reflexivity.
  - now apply rstrip_snoc_fix.
Qed.

Lemma rstrip_nil_head s c t : rstrip s = c :: t -> exists t', s = c :: t'.
Proof.
  intros E. destruct (rstrip_decompose s) as [w [D _]].
  rewrite E in D. simpl in D. eauto.
Qed.

Lemma lstrip_strip s : lstrip (strip s) = strip s.
Proof.
  unfold strip. destruct (rstrip (lstrip s)) as [|c t] eqn:E; [reflexivity|].
  apply lstrip_fix. destruct (rstrip_nil_head _ E) as [t' E'].
  eapply lstrip_head; eauto.
Qed.

Lemma rstrip_strip s : rstrip (strip s) = strip s.
Proof. unfold strip. apply rstrip_idem. Qed.

End StringFacts.

Section ParserStructure.

(** The loop over the sections never raises: it appends the entry of each
    section in turn. *)
Lemma for_sections_spec sections :
  forall acc, for_sections sections acc = Ok (acc ++ flat_map section_entry sections).
Proof.
  induction sections as [|section rest IH]; intros acc; simpl.
  - now rewrite app_nil_r.
  - unfold section_entry, section_company, section_bullets, section_lines.
    destruct (split_nl (strip section)) as [|l0 ls] eqn:E2.
    { exfalso; eapply split_nl_nonempty; eauto. }
    destruct (truthy_seq (strip section)) eqn:E1; simpl.
    + destruct (truthy_seq (strip l0) && truthy_seq (collect_bullets ls)) eqn:E3;
        rewrite IH; [rewrite <- app_assoc|]; reflexivity.
    + apply truthy_seq_false in E1. rewrite E1 in E2. simpl in E2.
      injection E2 as <- <-. simpl. apply IH.
Qed.

Lemma extract_experience_spec s :
  extract_experience s = Ok (flat_map section_entry (company_sections s)).
Proof.
  unfold extract_experience, company_sections.
  destruct (re_search experience_re s); [|reflexivity].
  apply (for_sections_spec _ []).
Qed.

(** [parse_ai_response] always returns, and what it returns. *)
Lemma parse_ai_response_spec s :
  parse_ai_response s =
  Ok (remove_special
        {| summary := extract_summary s;
           workExperience := flat_map section_entry (company_sections s) |}).
Proof.
  unfold parse_ai_response. now rewrite extract_experience_spec.
Qed.

Lemma section_entry_inv section e :
  In e (section_entry section) ->
  company e = section_company section /\
  bulletPoints e = firstn 4 (section_bullets section) /\
  section_company section <> [] /\ section_bullets section <> [].
Proof.
  unfold section_entry.
  destruct (truthy_seq (section_company section)) eqn:C;
    destruct (truthy_seq (section_bullets section)) eqn:B; simpl;
    try contradiction.
  intros [<- | []]. simpl.
  apply truthy_seq_true in C, B. auto.
Qed.

Lemma sub_noise_clean x : no_noise (sub_noise x).
Proof.
  unfold no_noise, sub_noise.
  split; intros H; apply filter_In in H; destruct H as [_ H]; discriminate.
Qed.

(** The regular-expression search misses where the marker does not occur. *)
Lemma re_search_marker_absent {A} m (k : pystr -> option A) s :
  contains_ci m s = false ->
  re_search (fun t => match match_literal_ci m t with
                      | Some rest => k rest
                      | None => None
                      end) s = None.
Proof.
  induction s as [|c t IH]; simpl; intros H.
  - destruct (match_literal_ci m []); [discriminate|reflexivity].
  - destruct (match_literal_ci m (c :: t)); [discriminate|]. auto.
Qed.

(** [contains_ci] says that [s] holds a stretch of text that matches the
    marker character by character. *)
Lemma match_literal_ci_spec m s rest :
  match_literal_ci m s = Some rest <->
  exists mid, s = mid ++ rest /\ Forall2 (fun p c => ci_char p c = true) m mid.
Proof.
  revert s. induction m as [|p m IH]; intros s; simpl.
  - split.
    + intros [= ->]. exists []. auto.
    + intros [mid [-> F]]. inversion F. reflexivity.
  - destruct s as [|c s].
    + split; [discriminate|]. intros [mid [E F]]. inversion F; subst. discriminate.
    + destruct (ci_char p c) eqn:P.
      * rewrite IH. split.
        -- intros [mid [-> F]]. exists (c :: mid). auto.
        -- intros [mid [E F]]. inversion F; subst. injection E as -> ->. eauto.
      * split; [discriminate|]. intros [mid [E F]]. inversion F; subst.
        injection E as -> ->. congruence.
Qed.

Lemma contains_ci_spec m s :
  contains_ci m s = true <->
  exists pre mid post,
    s = pre ++ mid ++ post /\ Forall2 (fun p c => ci_char p c = true) m mid.
Proof.
  induction s as [|c t IH].
  - simpl. destruct (match_literal_ci m []) as [rest|] eqn:E.
    + split; [intros _|reflexivity].
      apply match_literal_ci_spec in E. destruct E as [mid [E F]].
      exists [], mid, rest. auto.
    + split; [discriminate|]. intros [pre [mid [post [E' F]]]].
      destruct pre; [|discriminate]. simpl in E'.
      assert (match_literal_ci m [] = Some post) as X
        by (apply match_literal_ci_spec; eauto).
      congruence.
  - simpl. destruct (match_literal_ci m (c :: t)) as [rest|] eqn:E.
    + split; [intros _|reflexivity].
      apply match_literal_ci_spec in E. destruct E as [mid [E F]].
      exists [], mid, rest. auto.
    + rewrite IH. split.
      * intros [pre [mid [post [-> F]]]]. exists (c :: pre), mid, post. auto.
      * intros [pre [mid [post [E' F]]]]. destruct pre as [|a pre].
        -- simpl in E'.
           assert (match_literal_ci m (c :: t) = Some post) as X
             by (apply match_literal_ci_spec; eauto).
           congruence.
        -- injection E' as -> ->. eauto.
Qed.

End ParserStructure.

Section SingleBlock.

Lemma eqb_str_eq a b : eqb_str a b = true <-> a = b.
Proof.
  revert b. induction a as [|x a IH]; destruct b as [|y b]; simpl;
    try (split; [discriminate|congruence]); [tauto|].
  rewrite andb_true_iff, N.eqb_eq, IH. split.
  - intros [-> ->]; reflexivity.
  - intros [= -> ->]; auto.
Qed.

Lemma is_marker_not_space m : is_marker m = true -> isspace m = false.
Proof.
  unfold is_marker. rewrite !orb_true_iff, !N.eqb_eq.
  intros [[-> | ->] | ->]; reflexivity.
Qed.

Lemma is_marker_not_nl m : is_marker m = true -> (m =? NL) = false.
Proof.
  unfold is_marker. rewrite !orb_true_iff, !N.eqb_eq.
  intros [[-> | ->] | ->]; reflexivity.
Qed.

Lemma is_noise_not_space c : is_noise c = true -> isspace c = false.
Proof.
  unfold is_noise. rewrite orb_true_iff, !N.eqb_eq.
  intros [-> | ->]; reflexivity.
Qed.

Lemma ends_nonspace_app a x : ends_nonspace x -> ends_nonspace (a ++ x).
Proof.
  intros [p [d [-> D]]]. exists (a ++ p), d. now rewrite app_assoc.
Qed.

Lemma ends_nonspace_cons a x : ends_nonspace x -> ends_nonspace (a :: x).
Proof. apply (ends_nonspace_app [a]). Qed.

Lemma ends_nonspace_rstrip x : ends_nonspace x -> rstrip x = x.
Proof. intros [p [d [-> D]]]. now apply rstrip_snoc_fix. Qed.

Lemma clean_inv x :
  clean x = true ->
  (exists c t, x = c :: t /\ isspace c = false) /\
  ends_nonspace x /\ strip x = x /\ ~ In NL x.
Proof.
  unfold clean. rewrite !andb_true_iff, truthy_seq_true, eqb_str_eq, negb_true_iff.
  intros [[N S] L].
  assert (~ In NL x) as NoNL.
  { intros H. assert (existsb (N.eqb NL) x = true) as X.
    { apply existsb_exists. exists NL. split; [assumption|apply N.eqb_refl]. }
    congruence. }
  assert (lstrip x = x) as Lx by (pose proof (lstrip_strip x) as X; now rewrite S in X).
  assert (rstrip x = x) as R by (pose proof (rstrip_strip x) as X; now rewrite S in X).
  split; [|split; [|split]]; trivial.
  - destruct x as [|c t]; [congruence|]. exists c, t. split; [reflexivity|].
    eapply lstrip_head; eauto.
  - destruct (rstrip_last x) as [E | [p [d [E D]]]]; rewrite R in E.
    + congruence.
    + exists p, d. auto.
Qed.

Lemma strip_cons_space c x : isspace c = true -> strip (c :: x) = strip x.
Proof. intros H. unfold strip. now rewrite lstrip_space. Qed.

Lemma strip_fix c t :
  isspace c = false -> ends_nonspace (c :: t) -> strip (c :: t) = c :: t.
Proof.
  intros C E. unfold strip. rewrite lstrip_fix by assumption.
  now apply ends_nonspace_rstrip.
Qed.

(** Splitting where the text before the next line feed holds none. *)
Lemma split_companies_cons c t :
  split_companies (c :: t) =
  if split_point c t then [] :: split_companies t
  else match split_companies t with
       | h :: r => (c :: h) :: r
       | [] => [[c]]
       end.
Proof. reflexivity. Qed.

Lemma split_nl_cons c t :
  split_nl (c :: t) =
  if c =? NL then [] :: split_nl t
  else match split_nl t with
       | h :: r => (c :: h) :: r
       | [] => [[c]]
       end.
Proof. reflexivity. Qed.

Lemma split_companies_app x y :
  ~ In NL x ->
  split_companies (x ++ y) =
  match split_companies y with
  | h :: r => (x ++ h) :: r
  | [] => [x]
  end.
Proof.
  induction x as [|c x IH]; intros N; simpl.
  - destruct (split_companies y) eqn:E; [|reflexivity].
    exfalso; eapply split_companies_nonempty; eauto.
  - assert ((c =? NL) = false) as C
      by (apply N.eqb_neq; intros ->; apply N; now left).
    unfold split_point. rewrite C. simpl.
    rewrite IH by (intros H; apply N; now right).
    destruct (split_companies y); reflexivity.
Qed.

Lemma split_nl_app x y :
  ~ In NL x ->
  split_nl (x ++ y) =
  match split_nl y with
  | h :: r => (x ++ h) :: r
  | [] => [x]
  end.
Proof.
  induction x as [|c x IH]; intros N; simpl.
  - destruct (split_nl y) eqn:E; [|reflexivity].
    exfalso; eapply split_nl_nonempty; eauto.
  - assert ((c =? NL) = false) as C
      by (apply N.eqb_neq; intros ->; apply N; now left).
    rewrite C. rewrite IH by (intros H; apply N; now right).
    destruct (split_nl y); reflexivity.
Qed.

Variable m : char.
Hypothesis marker : is_marker m = true.

Lemma bullet_line_no_nl b : ~ In NL b -> ~ In NL (bullet_line m b).
Proof.
  intros N [H | [H | H]]; try (now apply N); try discriminate.
  apply is_marker_not_nl in marker. apply N.eqb_neq in marker. congruence.
Qed.

Let bullet_lines (bs : list pystr) : pystr :=
  concat (map (fun b => NL :: bullet_line m b) bs).

Lemma split_companies_bullet_lines bs :
  Forall (fun b => ~ In NL b) bs ->
  split_companies (bullet_lines bs) = [bullet_lines bs].
Proof.
  induction 1 as [|b bs Hb _ IH]; [reflexivity|].
  unfold bullet_lines in *. cbn [concat map app].
  rewrite split_companies_cons.
  assert (forall r, split_point NL (bullet_line m b ++ r) = false) as SP
    by (intros r; unfold split_point, bullet_line; simpl;
        now rewrite marker, orb_true_r).
  rewrite SP.
  rewrite split_companies_app by (now apply bullet_line_no_nl).
  rewrite IH. reflexivity.
Qed.

Lemma split_nl_bullet_lines bs :
  Forall (fun b => ~ In NL b) bs ->
  split_nl (bullet_lines bs) = [] :: map (bullet_line m) bs.
Proof.
  induction 1 as [|b bs Hb _ IH]; [reflexivity|].
  unfold bullet_lines in *. cbn [concat map app]. rewrite split_nl_cons.
  rewrite N.eqb_refl.
  rewrite split_nl_app by (now apply bullet_line_no_nl).
  rewrite IH. now rewrite app_nil_r.
Qed.

Lemma collect_bullets_bullet_lines bs :
  Forall (fun b => clean b = true) bs ->
  collect_bullets (map (bullet_line m) bs) = bs.
Proof.
  induction 1 as [|b bs Hb _ IH]; [reflexivity|].
  destruct (clean_inv _ Hb) as [[c [t [E C]]] [End [S _]]].
  simpl map. cbn [collect_bullets].
  assert (strip (bullet_line m b) = bullet_line m b) as L.
  { apply strip_fix; [now apply is_marker_not_space|].
    now do 2 apply ends_nonspace_cons. }
  rewrite IH, L. unfold bullet_line. cbn [startswith_marker skipn].
  rewrite marker.
  rewrite strip_cons_space by reflexivity. rewrite S.
  subst b. reflexivity.
Qed.

Lemma ends_nonspace_block c bs :
  clean c = true -> Forall (fun b => clean b = true) bs ->
  ends_nonspace (company_block m c bs).
Proof.
  intros Hc Hbs. unfold company_block.
  destruct (clean_inv _ Hc) as [_ [End _]].
  induction Hbs as [|b bs Hb _ IH]; simpl.
  - now rewrite app_nil_r.
  - destruct bs as [|b' bs].
    + simpl. rewrite app_nil_r. apply ends_nonspace_app.
      do 3 apply ends_nonspace_cons. now destruct (clean_inv _ Hb) as [_ [? _]].
    + destruct IH as [p [d [E D]]].
      remember (concat (map (fun b0 => NL :: bullet_line m b0) (b' :: bs))) as L.
      assert (exists q, L = q ++ [d]) as [q Q].
      { destruct (clean_inv _ Hc) as [_ [[pc [dc [Ec _]]] _]].
        assert (L <> []) as NE by (subst L; discriminate).
        destruct (exists_last NE) as [q [l Q]]. exists q.
        rewrite Q in E. rewrite app_assoc in E.
        apply app_inj_tail in E. destruct E as [_ ->]. assumption. }
      exists (c ++ NL :: bullet_line m b ++ q), d. split; [|assumption].
      rewrite Q. rewrite <- !app_assoc. simpl. now rewrite <- !app_assoc.
Qed.

Lemma strip_block c bs :
  clean c = true -> Forall (fun b => clean b = true) bs ->
  strip (company_block m c bs) = company_block m c bs.
Proof.
  intros Hc Hbs. assert (ends_nonspace (company_block m c bs)) as End
    by (now apply ends_nonspace_block).
  destruct (clean_inv _ Hc) as [[a [t [-> A]]] _].
  unfold company_block in *. simpl in *. now apply strip_fix.
Qed.

Lemma clean_all_no_nl bs :
  Forall (fun b => clean b = true) bs -> Forall (fun b => ~ In NL b) bs.
Proof.
  intros H. eapply Forall_impl; [|exact H]. intros b Hb.
  now destruct (clean_inv _ Hb) as [_ [_ [_ ?]]].
Qed.

Lemma match_literal_ci_self pat rest :
  forallb (fun p => ci_char p p) pat = true ->
  match_literal_ci pat (pat ++ rest) = Some rest.
Proof.
  induction pat as [|p pat IH]; simpl; [reflexivity|].
  rewrite andb_true_iff. intros [-> H]. auto.
Qed.

Lemma lazy_dotall_unfold stop s :
  lazy_dotall stop s =
  if stop s then Some []
  else match s with
       | [] => None
       | c :: t => option_map (cons c) (lazy_dotall stop t)
       end.
Proof. destruct s; reflexivity. Qed.

Lemma lazy_dotall_at_dollar x :
  ends_nonspace x -> lazy_dotall at_dollar x = Some x.
Proof.
  induction x as [|c x IH]; intros [p [d [E D]]].
  - destruct p; discriminate.
  - destruct x as [|c' x].
    + destruct p as [|? [|? ?]]; try discriminate. injection E as ->.
      simpl. destruct (d =? NL) eqn:N; [|reflexivity].
      apply N.eqb_eq in N. subst d. discriminate.
    + rewrite lazy_dotall_unfold. cbn [at_dollar]. rewrite IH; [reflexivity|].
      destruct p as [|a p]; [discriminate|]. injection E as -> E.
      exists p, d. auto.
Qed.

Lemma re_search_here {A} (f : pystr -> option A) s r :
  f s = Some r -> re_search f s = Some r.
Proof. intros H. destruct s; simpl; now rewrite H. Qed.

(** The sections of a reply made of one company block. *)
Lemma company_sections_single c bs :
  clean c = true -> Forall (fun b => clean b = true) bs ->
  company_sections (experience_reply m c bs) = [company_block m c bs].
Proof.
  intros Hc Hbs. unfold company_sections, experience_reply.
  assert (experience_re (EXPERIENCE_MARK ++ NL :: company_block m c bs)
          = Some (NL :: company_block m c bs)) as R.
  { unfold experience_re. rewrite match_literal_ci_self by (vm_compute; reflexivity).
    apply lazy_dotall_at_dollar. apply ends_nonspace_cons.
    now apply ends_nonspace_block. }
  assert (re_search experience_re (EXPERIENCE_MARK ++ NL :: company_block m c bs)
          = Some (NL :: company_block m c bs)) as R'.
  { now apply re_search_here. }
  rewrite R'. rewrite strip_cons_space by reflexivity.
  rewrite strip_block by assumption.
  unfold company_block.
  rewrite split_companies_app by (now destruct (clean_inv _ Hc) as [_ [_ [_ ?]]]).
  fold (bullet_lines bs).
  rewrite split_companies_bullet_lines by (now apply clean_all_no_nl).
  reflexivity.
Qed.

Lemma section_lines_block c bs :
  clean c = true -> Forall (fun b => clean b = true) bs ->
  section_lines (company_block m c bs) = c :: map (bullet_line m) bs.
Proof.
  intros Hc Hbs. unfold section_lines. rewrite strip_block by assumption.
  unfold company_block.
  rewrite split_nl_app by (now destruct (clean_inv _ Hc) as [_ [_ [_ ?]]]).
  fold (bullet_lines bs).
  rewrite split_nl_bullet_lines by (now apply clean_all_no_nl).
  now rewrite app_nil_r.
Qed.

(** A reply made of one company with its bullet lines parses to that
    company, as written, with the first four bullet texts. *)
Lemma parse_single_block c bs :
  clean c = true -> Forall (fun b => clean b = true) bs -> bs <> [] ->
  parse_ai_response (experience_reply m c bs) =
  Ok {| summary := sub_noise (extract_summary (experience_reply m c bs));
        workExperience :=
          [{| company := c; bulletPoints := map sub_noise (firstn 4 bs) |}] |}.
Proof.
  intros Hc Hbs NE. rewrite parse_ai_response_spec.
  rewrite company_sections_single by assumption.
  cbn [flat_map]. rewrite app_nil_r.
  unfold section_entry, section_company, section_bullets.
  rewrite section_lines_block by assumption.
  cbn [hd skipn].
  rewrite collect_bullets_bullet_lines by assumption.
  destruct (clean_inv _ Hc) as [[a [t [E A]]] [_ [S _]]].
  rewrite S. subst c. destruct bs as [|b bs]; [congruence|].
  reflexivity.
Qed.

End SingleBlock.

Section SummaryShape.

Lemma sub_ws_runs_only_spaces x :
  forall b, Forall (fun c => isspace c = true -> c = SPACE) (sub_ws_runs b x).
Proof.
  induction x as [|c t IH]; intros b; simpl; [constructor|].
  destruct (isspace c) eqn:C.
  - destruct b; [apply IH|]. constructor; [reflexivity|apply IH].
  - constructor; [congruence|apply IH].
Qed.

Lemma sub_ws_runs_no_adjacent x :
  forall b,
    no_adjacent_space (sub_ws_runs b x) = true /\
    (b = true ->
     match sub_ws_runs b x with
     | c :: _ => isspace c = false
     | [] => True
     end).
Proof.
  induction x as [|c t IH]; intros b; simpl; [auto|].
  destruct (isspace c) eqn:C.
  - destruct b; [apply IH|]. split; [|discriminate].
    destruct (IH true) as [A H]. specialize (H eq_refl).
    cbn [no_adjacent_space]. rewrite A.
    destruct (sub_ws_runs true t); [reflexivity|]. now rewrite H.
  - split; [|auto]. cbn [no_adjacent_space]. rewrite C.
    destruct (IH false) as [A _]. rewrite A.
    destruct (sub_ws_runs false t); reflexivity.
Qed.

Lemma sub_ws_runs_snoc p d :
  isspace d = false ->
  forall b, sub_ws_runs b (p ++ [d]) = sub_ws_runs b p ++ [d].
Proof.
  intros D. induction p as [|c p IH]; intros b; simpl.
  - now rewrite D.
  - destruct (isspace c); [destruct b|]; now rewrite IH.
Qed.

Lemma ends_nonspace_suffix a z :
  ends_nonspace (a ++ z) -> z <> [] -> ends_nonspace z.
Proof.
  intros [p [d [E D]]] NE.
  destruct (exists_last NE) as [q [l Q]]. subst z.
  rewrite app_assoc in E. apply app_inj_tail in E. destruct E as [_ ->].
  now exists q, d.
Qed.

Lemma trimmed_strip x : trimmed (strip x).
Proof. split; [apply lstrip_strip|apply rstrip_strip]. Qed.

Lemma trimmed_fix x : trimmed x -> strip x = x.
Proof. intros [L R]. unfold strip. now rewrite L. Qed.

Lemma trimmed_cons_inv c t :
  trimmed (c :: t) -> isspace c = false /\ ends_nonspace (c :: t).
Proof.
  intros [L R]. split.
  - eapply lstrip_head; eauto.
  - destruct (rstrip_last (c :: t)) as [E | [p [d [E D]]]]; rewrite R in E.
    + discriminate.
    + now exists p, d.
Qed.

Lemma trimmed_lstrip_tail c r : trimmed (c :: r) -> trimmed (lstrip r).
Proof.
  intros T. destruct (trimmed_cons_inv T) as [_ End].
  split; [apply lstrip_idem|].
  destruct (lstrip r) as [|a t] eqn:E; [reflexivity|].
  apply ends_nonspace_rstrip.
  destruct (lstrip_decompose r) as [w [D _]]. rewrite E in D.
  apply (ends_nonspace_suffix (c :: w)); [|discriminate].
  simpl. now rewrite <- D.
Qed.

Lemma sub_leading_bullet_trimmed y : trimmed y -> trimmed (sub_leading_bullet y).
Proof.
  intros T. unfold sub_leading_bullet. destruct T as [L R]. rewrite L.
  destruct y as [|c r]; [now split|].
  destruct (c =? BULLET); [|now split].
  now apply (trimmed_lstrip_tail (c := c)).
Qed.

Lemma sub_ws_runs_trimmed x : trimmed x -> trimmed (sub_ws_runs false x).
Proof.
  intros T. destruct x as [|c t]; [now split|].
  destruct (trimmed_cons_inv T) as [C [p [d [E D]]]].
  assert (ends_nonspace (sub_ws_runs false (c :: t))) as End.
  { rewrite E, sub_ws_runs_snoc by assumption. now exists (sub_ws_runs false p), d. }
  simpl in *. rewrite C in *. split.
  - now apply lstrip_fix.
  - now apply ends_nonspace_rstrip.
Qed.

Lemma extract_summary_trimmed s : trimmed (extract_summary s).
Proof.
  unfold extract_summary. destruct (re_search summary_re s); [|now split].
  apply sub_ws_runs_trimmed, sub_leading_bullet_trimmed, trimmed_strip.
Qed.

End SummaryShape.

(** C1. For every input string the parser returns a result, it never
    raises; and for an input that holds neither the summary marker nor the
    experience marker (in any case) the result is the empty summary with the
    empty list of work experience. *)
Theorem parse_total_and_empty_without_markers (s : pystr) :
  (exists r, parse_ai_response s = Ok r) /\
  (contains_ci SUMMARY_MARK s = false ->
   contains_ci EXPERIENCE_MARK s = false ->
   parse_ai_response s = Ok {| summary := []; workExperience := [] |}).
Proof.
  split.
  - rewrite parse_ai_response_spec. eauto.
  - intros HS HE. rewrite parse_ai_response_spec.
    unfold extract_summary, company_sections, summary_re, experience_re.
    rewrite (re_search_marker_absent _ _ _ HS).
    rewrite (re_search_marker_absent _ _ _ HE).
    reflexivity.
Qed.

Lemma parse_total_and_empty_without_markers_witness :
  parse_ai_response (lit "Thank you for sharing your resume.")
  = Ok {| summary := []; workExperience := [] |}.
Proof.
  apply (proj2 (parse_total_and_empty_without_markers
                  (lit "Thank you for sharing your resume."))).
  - vm_compute. reflexivity.
  - vm_compute. reflexivity.
Defined.

Lemma entries_of_sections sections e :
  In e (flat_map section_entry sections) ->
  exists section,
    In section sections /\
    company e = section_company section /\
    bulletPoints e = firstn 4 (section_bullets section) /\
    section_company section <> [] /\ section_bullets section <> [].
Proof.
  intros H. apply in_flat_map in H. destruct H as [section [I H]].
  exists section. split; [assumption|]. now apply section_entry_inv.
Qed.

Lemma collect_bullets_nonempty lines :
  Forall (fun point => point <> []) (collect_bullets lines).
Proof.
  induction lines as [|line rest IH]; [constructor|]. cbn [collect_bullets].
  destruct (startswith_marker (strip line)); [|assumption].
  destruct (truthy_seq (strip (skipn 1 (strip line)))) eqn:T; [|assumption].
  constructor; [|assumption]. now apply truthy_seq_true.
Qed.

Lemma noise_only_clean w :
  w <> [] -> forallb is_noise w = true -> clean w = true /\ sub_noise w = [].
Proof.
  intros NE H. rewrite forallb_forall in H. split.
  - unfold clean. rewrite !andb_true_iff. repeat split.
    + now apply truthy_seq_true.
    + apply eqb_str_eq. destruct w as [|c t]; [congruence|].
      apply strip_fix.
      * apply is_noise_not_space, H. now left.
      * destruct (@exists_last _ (c :: t)) as [q [l Q]]; [discriminate|].
        exists q, l. split; [assumption|].
        apply is_noise_not_space, H. rewrite Q. apply in_or_app. right. now left.
    + apply negb_true_iff. destruct (existsb (N.eqb NL) w) eqn:E; [|reflexivity].
      apply existsb_exists in E. destruct E as [x [I E]].
      apply N.eqb_eq in E. subst x. apply H in I. discriminate.
  - unfold sub_noise. induction w as [|c t IH]; [reflexivity|]. simpl.
    rewrite (H c) by now left. simpl.
    destruct t as [|c' t']; [reflexivity|].
    apply IH; [discriminate|]. intros x I. apply H. now right.
Qed.

(** The reply of the end-to-end scenario. *)
Example parse_scenario_reply :
  parse_ai_response (lit "SUMMARY:
Experienced professional skilled in Y.

EXPERIENCE:
Acme
• Delivered Y-aligned results
• Improved X by 20%
")
  = Ok {| summary := lit "Experienced professional skilled in Y.";
          workExperience :=
            [{| company := lit "Acme";
                bulletPoints := [lit "Delivered Y-aligned results";
                                 lit "Improved X by 20%"] |}] |}.
Proof. vm_compute. reflexivity. Qed.

(** A marker counts at the start of a line only. *)
Example marker_must_open_the_line :
  collect_bullets [lit "Great - company"; lit "- Great company"]
  = [lit "Great company"].
Proof. vm_compute. reflexivity. Qed.

(** Markers and markers in lower case are found alike. *)
Example markers_in_any_case :
  parse_ai_response (lit "summary: Builder of things
experience:
Initech
* shipped the thing")
  = Ok {| summary := lit "Builder of things";
          workExperience :=
            [{| company := lit "Initech";
                bulletPoints := [lit "shipped the thing"] |}] |}.
Proof. vm_compute. reflexivity. Qed.

(* ------------------------------------------------------------------ *)
(** ** The claims about the parser *)
(* ------------------------------------------------------------------ *)

(** C3. For every input the parser returns a result in which every entry
    of the work experience has at most four bullet points.  A reply whose
    experience section is one company followed by six bullet lines yields
    one entry with exactly four bullet points: the texts of the first four
    lines, in their order (each after the removal of asterisks and double
    quotes). *)
Theorem bullet_points_capped_at_four :
  (forall s, exists r,
      parse_ai_response s = Ok r /\
      Forall (fun e => (List.length (bulletPoints e) <= 4)%nat) (workExperience r)) /\
  (forall m c bs,
      is_marker m = true -> clean c = true ->
      Forall (fun b => clean b = true) bs -> List.length bs = 6%nat ->
      exists r,
        parse_ai_response (experience_reply m c bs) = Ok r /\
        workExperience r =
          [{| company := c; bulletPoints := map sub_noise (firstn 4 bs) |}] /\
        Forall (fun e => List.length (bulletPoints e) = 4%nat) (workExperience r)).
Proof.
  split.
  - intros s. rewrite parse_ai_response_spec. eexists. split; [reflexivity|].
    simpl. apply Forall_forall. intros e He.
    apply in_map_iff in He. destruct He as [e0 [<- He]]. simpl.
    apply entries_of_sections in He. destruct He as [section [_ [_ [B _]]]].
    rewrite length_map, B. apply firstn_le_length.
  - intros m c bs M C B L.
    assert (bs <> []) as NE by (intros ->; discriminate).
    rewrite (@parse_single_block m M c bs C B NE). eexists. split; [reflexivity|].
    cbn [workExperience]. split; [reflexivity|].
    constructor; [|constructor]. cbn [bulletPoints].
    rewrite length_map, length_firstn, L. reflexivity.
Qed.

Lemma bullet_points_capped_at_four_witness :
  exists r,
    parse_ai_response
      (experience_reply BULLET (lit "Acme")
         [lit "one"; lit "two"; lit "three"; lit "four"; lit "five"; lit "six"])
    = Ok r /\
    workExperience r =
      [{| company := lit "Acme";
          bulletPoints :=
            map sub_noise
              (firstn 4 [lit "one"; lit "two"; lit "three"; lit "four";
                         lit "five"; lit "six"]) |}] /\
    Forall (fun e => List.length (bulletPoints e) = 4%nat) (workExperience r).
Proof.
  apply (proj2 bullet_points_capped_at_four).
  - reflexivity.
  - vm_compute. reflexivity.
  - repeat (apply Forall_cons; [vm_compute; reflexivity|]). apply Forall_nil.
  - reflexivity.
Defined.

(** C5. For every input the parser returns a result whose summary and
    whose every bullet point hold no asterisk and no double quote. *)
Theorem no_asterisk_or_quote_in_result (s : pystr) :
  exists r,
    parse_ai_response s = Ok r /\
    no_noise (summary r) /\
    Forall (fun e => Forall no_noise (bulletPoints e)) (workExperience r).
Proof.
  rewrite parse_ai_response_spec. eexists. split; [reflexivity|].
  simpl. split; [apply sub_noise_clean|].
  apply Forall_forall. intros e He.
  apply in_map_iff in He. destruct He as [e0 [<- _]]. simpl.
  apply Forall_forall. intros b Hb.
  apply in_map_iff in Hb. destruct Hb as [b0 [<- _]].
  apply sub_noise_clean.
Qed.

(** C6. Every entry the parser returns has a company name that is not
    empty and at least one bullet point.  In the loop, a section that is
    only white space, a section whose first line is empty after trimming and
    a section without bullet points add nothing; and a line whose content
    after the marker is empty adds no bullet point, so no empty string is
    collected. *)
Theorem entries_have_company_and_bullets :
  (forall s, exists r,
      parse_ai_response s = Ok r /\
      Forall (fun e => company e <> [] /\ bulletPoints e <> []) (workExperience r)) /\
  (forall section rest acc,
      strip section = [] \/ section_company section = []
      \/ section_bullets section = [] ->
      for_sections (section :: rest) acc = for_sections rest acc) /\
  (forall line rest,
      strip (skipn 1 (strip line)) = [] ->
      collect_bullets (line :: rest) = collect_bullets rest) /\
  (forall lines, Forall (fun point => point <> []) (collect_bullets lines)).
Proof.
  split; [|split; [|split]].
  - intros s. rewrite parse_ai_response_spec. eexists. split; [reflexivity|].
    simpl. apply Forall_forall. intros e He.
    apply in_map_iff in He. destruct He as [e0 [<- He]]. simpl.
    apply entries_of_sections in He.
    destruct He as [section [_ [C [B [NC NB]]]]].
    split; [congruence|]. rewrite B.
    destruct (section_bullets section); [congruence|discriminate].
  - intros section rest acc H.
    rewrite !for_sections_spec. f_equal. simpl.
    assert (section_entry section = []) as E; [|now rewrite E].
    unfold section_entry.
    destruct H as [H | [H | H]].
    + unfold section_company, section_lines. rewrite H. reflexivity.
    + rewrite H. reflexivity.
    + rewrite H. now rewrite andb_false_r.
  - intros line rest H. cbn [collect_bullets]. rewrite H.
    now destruct (startswith_marker (strip line)).
  - apply collect_bullets_nonempty.
Qed.

Lemma entries_have_company_and_bullets_witness :
  for_sections [lit "Acme"; lit "Globex
- shipped"] []
  = for_sections [lit "Globex
- shipped"] [] /\
  collect_bullets [lit "-  "; lit "- kept"] = collect_bullets [lit "- kept"].
Proof.
  split.
  - apply (proj1 (proj2 entries_have_company_and_bullets)).
    right. right. vm_compute. reflexivity.
  - apply (proj1 (proj2 (proj2 entries_have_company_and_bullets))).
    vm_compute. reflexivity.
Defined.

(** C9. The last pass of the parser leaves the company of every entry as
    it is.  The company of an entry is the trimmed first line of its
    section, and a company written with asterisks or double quotes comes
    back with them. *)
Theorem company_name_kept_as_written :
  (forall r,
      map company (workExperience (remove_special r)) = map company (workExperience r)) /\
  (forall s, exists r,
      parse_ai_response s = Ok r /\
      Forall (fun e => exists section,
                  In section (company_sections s) /\
                  company e = strip (hd [] (split_nl (strip section))))
             (workExperience r)) /\
  (forall m c bs,
      is_marker m = true -> clean c = true ->
      Forall (fun b => clean b = true) bs -> bs <> [] ->
      exists r,
        parse_ai_response (experience_reply m c bs) = Ok r /\
        map company (workExperience r) = [c]).
Proof.
  split; [|split].
  - intros r. simpl. rewrite map_map. reflexivity.
  - intros s. rewrite parse_ai_response_spec. eexists. split; [reflexivity|].
    simpl. apply Forall_forall. intros e He.
    apply in_map_iff in He. destruct He as [e0 [<- He]]. simpl.
    apply entries_of_sections in He.
    destruct He as [section [I [C _]]]. exists section. auto.
  - intros m c bs M C B NE. rewrite (@parse_single_block m M c bs C B NE).
    eexists. split; reflexivity.
Qed.

Lemma company_name_kept_as_written_witness :
  exists r,
    parse_ai_response
      (experience_reply HYPHEN
         (lit "Acme *" ++ DQUOTE :: lit "Rockets" ++ [DQUOTE; STAR])
         [lit "built engines"])
    = Ok r /\
    map company (workExperience r)
    = [lit "Acme *" ++ DQUOTE :: lit "Rockets" ++ [DQUOTE; STAR]].
Proof.
  apply (proj2 (proj2 company_name_kept_as_written)).
  - reflexivity.
  - vm_compute. reflexivity.
  - repeat (apply Forall_cons; [vm_compute; reflexivity|]). apply Forall_nil.
  - discriminate.
Defined.

(** C10. Some input makes the parser return a bullet point that is the
    empty string: the empty-content test runs before the removal of
    asterisks and double quotes, so a bullet line whose content is made of
    those characters only is collected and then emptied.  The reply with the
    company line Acme and the bullet line made of a hyphen, a space and an
    asterisk is such an input. *)
Theorem noise_only_bullet_becomes_empty :
  (exists r e,
      parse_ai_response (experience_reply HYPHEN (lit "Acme") [[STAR]]) = Ok r /\
      In e (workExperience r) /\ In [] (bulletPoints e)) /\
  (forall m c w,
      is_marker m = true -> clean c = true ->
      w <> [] -> forallb is_noise w = true ->
      exists r,
        parse_ai_response (experience_reply m c [w]) = Ok r /\
        workExperience r = [{| company := c; bulletPoints := [[]] |}]).
Proof.
  assert (forall m c w,
      is_marker m = true -> clean c = true ->
      w <> [] -> forallb is_noise w = true ->
      exists r,
        parse_ai_response (experience_reply m c [w]) = Ok r /\
        workExperience r = [{| company := c; bulletPoints := [[]] |}]) as G.
  { intros m c w M C NE W.
    destruct (@noise_only_clean w NE W) as [CW SW].
    rewrite (@parse_single_block m M c [w] C); [|now constructor|discriminate].
    eexists. split; [reflexivity|]. simpl. now rewrite SW. }
  split; [|exact G].
  destruct (G HYPHEN (lit "Acme") [STAR]) as [r [P W]]; try reflexivity;
    try discriminate.
  exists r, {| company := lit "Acme"; bulletPoints := [[]] |}.
  split; [assumption|]. rewrite W. split; now left.
Qed.

Lemma noise_only_bullet_becomes_empty_witness :
  exists r,
    parse_ai_response (experience_reply STAR (lit "Initech") [[DQUOTE; STAR]]) = Ok r /\
    workExperience r = [{| company := lit "Initech"; bulletPoints := [[]] |}].
Proof.
  apply (proj2 noise_only_bullet_becomes_empty).
  - reflexivity.
  - vm_compute. reflexivity.
  - discriminate.
  - reflexivity.
Defined.

(** C4.  The claim asks that a bullet marker (U+2022, hyphen or asterisk)
    that opens the summary be stripped and that the summary come back
    trimmed.  The clean-up of the summary, announced in the source as the
    removal of bullet points, strips U+2022 only: a summary that opens with
    a hyphen comes back with the hyphen in front, and one that opens with an
    asterisk loses the asterisk in the last pass and comes back with the
    space after it in front, so it is not trimmed.  The loop over the
    bullet lines of the experience section strips each of the three markers
    from the same texts. *)
Theorem summary_leading_marker_not_stripped :
  parse_ai_response (lit "SUMMARY: - skilled engineer")
  = Ok {| summary := lit "- skilled engineer"; workExperience := [] |} /\
  parse_ai_response (lit "SUMMARY: * skilled engineer")
  = Ok {| summary := lit " skilled engineer"; workExperience := [] |} /\
  strip (lit " skilled engineer") <> lit " skilled engineer" /\
  parse_ai_response (lit "SUMMARY: • skilled engineer")
  = Ok {| summary := lit "skilled engineer"; workExperience := [] |} /\
  collect_bullets
    [lit "- skilled engineer"; lit "* skilled engineer"; lit "• skilled engineer"]
  = [lit "skilled engineer"; lit "skilled engineer"; lit "skilled engineer"].
Proof.
  split; [vm_compute; reflexivity|].
  split; [vm_compute; reflexivity|].
  split; [vm_compute; discriminate|].
  split; vm_compute; reflexivity.
Qed.

(** The same for every reply: when the trimmed span after the summary
    marker opens with a hyphen, the summary returned opens with it. *)
Lemma summary_keeps_leading_hyphen (s span rest : pystr) :
  re_search summary_re s = Some span ->
  strip span = HYPHEN :: rest ->
  exists r,
    parse_ai_response s = Ok r /\
    summary r = HYPHEN :: sub_noise (sub_ws_runs false rest).
Proof.
  intros R S. rewrite parse_ai_response_spec. eexists. split; [reflexivity|].
  cbn [remove_special summary]. unfold extract_summary. rewrite R, S.
  reflexivity.
Qed.

(** What the clean-up of the summary does keep: for every input the summary
    holds no asterisk and no double quote and its only white space is the
    plain space; before the asterisks and quotes go, the cleaned-up span has
    no white space at either end and no two neighbouring white-space
    characters; and U+2022 at the start of the trimmed span is stripped
    with the white space after it. *)
Lemma summary_shape (s : pystr) :
  exists r,
    parse_ai_response s = Ok r /\
    summary r = sub_noise (extract_summary s) /\
    no_noise (summary r) /\
    Forall (fun c => isspace c = true -> c = SPACE) (summary r) /\
    strip (extract_summary s) = extract_summary s /\
    no_adjacent_space (extract_summary s) = true /\
    (forall span rest,
        re_search summary_re s = Some span -> strip span = BULLET :: rest ->
        extract_summary s = sub_ws_runs false (lstrip rest)).
Proof.
  rewrite parse_ai_response_spec. eexists. split; [reflexivity|].
  cbn [remove_special summary].
  split; [reflexivity|].
  split; [apply sub_noise_clean|].
  split.
  { assert (Forall (fun c => isspace c = true -> c = SPACE) (extract_summary s)) as F.
    { unfold extract_summary. destruct (re_search summary_re s); [|constructor].
      apply sub_ws_runs_only_spaces. }
    rewrite Forall_forall in F. apply Forall_forall. intros c Hc.
    apply filter_In in Hc. destruct Hc as [Hc _]. now apply F. }
  split; [apply trimmed_fix, extract_summary_trimmed|].
  split.
  { unfold extract_summary. destruct (re_search summary_re s); [|reflexivity].
    apply sub_ws_runs_no_adjacent. }
  intros span rest R S. unfold extract_summary. rewrite R, S. reflexivity.
Qed.

(* ================================================================== *)
(** * Properties of the formatter *)
(* ================================================================== *)

Lemma bind_ok {A B} (m : result A) (k : A -> result B) b :
  bind m k = Ok b -> exists a, m = Ok a /\ k a = Ok b.
Proof. destruct m; simpl; intros H; try discriminate. eauto. Qed.

Ltac inv_bind H :=
  let a := fresh "v" in
  let E := fresh "E" in
  apply bind_ok in H; destruct H as [a [E H]].

Tactic Notation "bind_inv" hyp(H) "as" ident(a) ident(E) :=
  apply bind_ok in H; destruct H as [a [E H]].

Ltac inv_ok H := injection H as H; subst.

Section FormatterFacts.

(** Membership and subscription that both succeed single out a dict. *)
Lemma contains_subscript key r v :
  Py.subscript r key = Ok v -> resume_field key r = Some v.
Proof.
  destruct r; simpl; try discriminate.
  destruct (Py.lookup key d); [|discriminate]. now intros [= ->].
Qed.

Lemma contains_false key r :
  Py.contains key r = Ok false -> resume_field key r = None.
Proof.
  destruct r; simpl; try reflexivity.
  destruct (Py.lookup key d); [discriminate|reflexivity].
Qed.

Lemma present_and_truthy_inv key r cond :
  present_and_truthy key r = Ok cond -> cond = field_truthy key r.
Proof.
  unfold present_and_truthy, field_truthy. intros H. inv_bind H.
  destruct v.
  - inv_bind H. inv_ok H. apply contains_subscript in E0. now rewrite E0.
  - inv_ok H. apply contains_false in E. now rewrite E.
Qed.

Lemma field_line_inv label obj key l :
  field_line label obj key = Ok l ->
  exists d t, obj = PDict d /\ l = label ++ t /\
              (Py.lookup key d = None -> t = lit "N/A").
Proof.
  unfold field_line. intros H. inv_bind H. inv_bind H. inv_ok H.
  destruct obj; try discriminate. simpl in E. inv_ok E.
  exists d, v0. repeat split. intros N. rewrite N in E0. simpl in E0. congruence.
Qed.

Lemma for_descriptions_inv items :
  forall f f', for_descriptions items f = Ok f' ->
  exists ext, f' = f ++ ext /\ filter is_section_label ext = [].
Proof.
  induction items as [|desc rest IH]; simpl; intros f f' H.
  - inv_ok H. exists []. now rewrite app_nil_r.
  - inv_bind H. apply IH in H. destruct H as [ext [-> F]].
    exists ((lit "- " ++ v) :: ext). rewrite <- app_assoc. split; [reflexivity|].
    simpl. exact F.
Qed.

Lemma add_descriptions_inv entry f f' :
  add_descriptions entry f = Ok f' ->
  exists ext, f' = f ++ ext /\ filter is_section_label ext = [].
Proof.
  unfold add_descriptions. intros H. inv_bind H. destruct v.
  - inv_bind H. inv_bind H. apply for_descriptions_inv in H.
    destruct H as [ext [-> F]]. exists (lit "Descriptions:" :: ext).
    rewrite <- app_assoc. split; [reflexivity|]. simpl. exact F.
  - inv_ok H. exists []. now rewrite app_nil_r.
Qed.

Lemma for_featured_inv items :
  forall f f', for_featured items f = Ok f' ->
  exists ext, f' = f ++ ext /\ filter is_section_label ext = [].
Proof.
  induction items as [|skill rest IH]; simpl; intros f f' H.
  - inv_ok H. exists []. now rewrite app_nil_r.
  - inv_bind H. destruct (Py.truthy v).
    + inv_bind H. inv_bind H. apply IH in H. destruct H as [ext [-> F]].
      exists ((lit "- " ++ v1) :: ext). rewrite <- app_assoc.
      split; [reflexivity|]. simpl. exact F.
    + now apply IH.
Qed.

Lemma placeholders_for_nil fields lines : placeholders_for fields [] lines.
Proof. intros d label key []. Qed.

Lemma placeholders_for_mono fields entries a ext b :
  placeholders_for fields entries ext ->
  placeholders_for fields entries (a ++ ext ++ b).
Proof.
  intros P d label key I F N. apply in_or_app. right. apply in_or_app. left.
  eapply P; eauto.
Qed.

(** One entry whose header lines are [hs], followed by lines [e1] and the
    entries [rest] with lines [e2]. *)
Lemma placeholders_for_cons fields d rest hs e1 e2 :
  (forall label key, In (label, key) fields -> Py.lookup key d = None ->
                     In (label ++ lit "N/A") hs) ->
  placeholders_for fields rest e2 ->
  placeholders_for fields (PDict d :: rest) (hs ++ e1 ++ [[]] ++ e2).
Proof.
  intros H P d' label key [I | I] F N.
  - injection I as <-. apply in_or_app. left. now apply (H label key).
  - apply in_or_app. right. apply in_or_app. right. apply in_or_app. right.
    eapply P; eauto.
Qed.

Tactic Notation "line_inv" hyp(H) "as" ident(d) ident(t) ident(N) :=
  apply field_line_inv in H; destruct H as [d [t [H [-> N]]]].

Ltac pick_field :=
  match goal with
  | F : In (_, _) _ |- _ =>
      simpl in F;
      repeat (destruct F as [F | F]; [injection F as <- <-|]); try contradiction
  end.

Lemma for_work_inv exps :
  forall f f', for_work exps f = Ok f' ->
  exists ext, f' = f ++ ext /\ filter is_section_label ext = [] /\
              placeholders_for work_fields exps ext.
Proof.
  induction exps as [|exp rest IH]; simpl; intros f f' H.
  - inv_ok H. exists []. rewrite app_nil_r. repeat split.
    apply placeholders_for_nil.
  - bind_inv H as l1 E1. bind_inv H as l2 E2. bind_inv H as l3 E3.
    bind_inv H as f1 D.
    line_inv E1 as d t N. subst.
    line_inv E2 as d0 t0 N0. injection E2 as <-.
    line_inv E3 as d1 t1 N1. injection E3 as <-.
    apply add_descriptions_inv in D. destruct D as [e1 [-> F1]].
    apply IH in H. destruct H as [e2 [-> [F2 P2]]].
    exists ([lit "Company: " ++ t; lit "Job Title: " ++ t0; lit "Date: " ++ t1]
              ++ e1 ++ [[]] ++ e2).
    split; [now rewrite <- !app_assoc|]. split.
    + simpl. rewrite filter_app, F1. simpl. exact F2.
    + apply placeholders_for_cons; [|assumption].
      intros label key F L. pick_field.
      * rewrite (N L). now left.
      * rewrite (N0 L). right. now left.
      * rewrite (N1 L). right. right. now left.
Qed.

Lemma for_education_inv edus :
  forall f f', for_education edus f = Ok f' ->
  exists ext, f' = f ++ ext /\ filter is_section_label ext = [] /\
              placeholders_for education_fields edus ext.
Proof.
  induction edus as [|edu rest IH]; simpl; intros f f' H.
  - inv_ok H. exists []. rewrite app_nil_r. repeat split.
    apply placeholders_for_nil.
  - bind_inv H as l1 E1. bind_inv H as l2 E2. bind_inv H as l3 E3.
    bind_inv H as f1 D.
    line_inv E1 as d t N. subst.
    line_inv E2 as d0 t0 N0. injection E2 as <-.
    line_inv E3 as d1 t1 N1. injection E3 as <-.
    apply add_descriptions_inv in D. destruct D as [e1 [-> F1]].
    apply IH in H. destruct H as [e2 [-> [F2 P2]]].
    exists ([lit "School: " ++ t; lit "Degree: " ++ t0; lit "Date: " ++ t1]
              ++ e1 ++ [[]] ++ e2).
    split; [now rewrite <- !app_assoc|]. split.
    + simpl. rewrite filter_app, F1. simpl. exact F2.
    + apply placeholders_for_cons; [|assumption].
      intros label key F L. pick_field.
      * rewrite (N L). now left.
      * rewrite (N0 L). right. now left.
      * rewrite (N1 L). right. right. now left.
Qed.

Lemma for_projects_inv projs :
  forall f f', for_projects projs f = Ok f' ->
  exists ext, f' = f ++ ext /\ filter is_section_label ext = [] /\
              placeholders_for project_fields projs ext.
Proof.
  induction projs as [|proj rest IH]; simpl; intros f f' H.
  - inv_ok H. exists []. rewrite app_nil_r. repeat split.
    apply placeholders_for_nil.
  - bind_inv H as l1 E1. bind_inv H as l2 E2.
    bind_inv H as f1 D.
    line_inv E1 as d t N. subst.
    line_inv E2 as d0 t0 N0. injection E2 as <-.
    apply add_descriptions_inv in D. destruct D as [e1 [-> F1]].
    apply IH in H. destruct H as [e2 [-> [F2 P2]]].
    exists ([lit "Project: " ++ t; lit "Date: " ++ t0] ++ e1 ++ [[]] ++ e2).
    split; [now rewrite <- !app_assoc|]. split.
    + simpl. rewrite filter_app, F1. simpl. exact F2.
    + apply placeholders_for_cons; [|assumption].
      intros label key F L. pick_field.
      * rewrite (N L). now left.
      * rewrite (N0 L). right. now left.
Qed.

Lemma falsy_list_nil l : Py.truthy (PList l) = false -> l = [].
Proof. destruct l; simpl; [reflexivity|discriminate]. Qed.

(** What a list section ([key], loop [loop], label [label]) appends. *)
Lemma list_section_inv key label fields
  (loop : list pyval -> list pystr -> result (list pystr)) r f f' :
  is_section_label label = true ->
  (forall items g g', loop items g = Ok g' ->
     exists ext, g' = g ++ ext /\ filter is_section_label ext = [] /\
                 placeholders_for fields items ext) ->
  (cond <- present_and_truthy key r ;;
   if cond then
     v <- Py.subscript r key ;;
     items <- Py.iter v ;;
     loop items (f ++ [label])
   else Ok f) = Ok f' ->
  exists ext,
    f' = f ++ ext /\
    filter is_section_label ext = (if field_truthy key r then [label] else []) /\
    (forall l, resume_field key r = Some (PList l) ->
               placeholders_for fields l ext).
Proof.
  intros Lab Loop H. bind_inv H as cond C.
  apply present_and_truthy_inv in C. subst cond.
  destruct (field_truthy key r) eqn:T.
  - bind_inv H as v V. bind_inv H as items I.
    apply contains_subscript in V.
    apply Loop in H. destruct H as [ext [-> [F P]]].
    exists (label :: ext). rewrite <- app_assoc. split; [reflexivity|]. split.
    + simpl. now rewrite Lab, F.
    + intros l R. rewrite R in V. injection V as <-.
      injection I as <-. intros d lab k A B N. right. eapply P; eauto.
  - inv_ok H. exists []. rewrite app_nil_r. repeat split.
    intros l R. unfold field_truthy in T. rewrite R in T.
    apply falsy_list_nil in T. subst l. apply placeholders_for_nil.
Qed.

Lemma add_work_inv r f f' :
  add_work r f = Ok f' ->
  exists ext,
    f' = f ++ ext /\
    filter is_section_label ext =
      (if field_truthy (lit "workExperiences") r then [lit "WORK EXPERIENCE:"] else []) /\
    (forall l, resume_field (lit "workExperiences") r = Some (PList l) ->
               placeholders_for work_fields l ext).
Proof.
  apply list_section_inv; [reflexivity|]. intros items. apply for_work_inv.
Qed.

Lemma add_education_inv r f f' :
  add_education r f = Ok f' ->
  exists ext,
    f' = f ++ ext /\
    filter is_section_label ext =
      (if field_truthy (lit "educations") r then [lit "EDUCATION:"] else []) /\
    (forall l, resume_field (lit "educations") r = Some (PList l) ->
               placeholders_for education_fields l ext).
Proof.
  apply list_section_inv; [reflexivity|]. intros items. apply for_education_inv.
Qed.

Lemma add_projects_inv r f f' :
  add_projects r f = Ok f' ->
  exists ext,
    f' = f ++ ext /\
    filter is_section_label ext =
      (if field_truthy (lit "projects") r then [lit "PROJECTS:"] else []) /\
    (forall l, resume_field (lit "projects") r = Some (PList l) ->
               placeholders_for project_fields l ext).
Proof.
  apply list_section_inv; [reflexivity|]. intros items. apply for_projects_inv.
Qed.

Lemma add_profile_inv r f f' :
  add_profile r f = Ok f' ->
  exists ext,
    f' = f ++ ext /\
    filter is_section_label ext =
      (if field_present (lit "profile") r then [lit "PROFILE:"] else []) /\
    (forall p, resume_field (lit "profile") r = Some p ->
               placeholders_for profile_fields [p] ext).
Proof.
  unfold add_profile, field_present. intros H. bind_inv H as has C.
  destruct has.
  - bind_inv H as profile P. apply contains_subscript in P. rewrite P.
    bind_inv H as l1 E1. bind_inv H as l2 E2. bind_inv H as l3 E3.
    bind_inv H as l4 E4. bind_inv H as l5 E5. bind_inv H as l6 E6.
    inv_ok H.
    line_inv E1 as d t1 N1. subst.
    line_inv E2 as d2 t2 N2. injection E2 as <-.
    line_inv E3 as d3 t3 N3. injection E3 as <-.
    line_inv E4 as d4 t4 N4. injection E4 as <-.
    line_inv E5 as d5 t5 N5. injection E5 as <-.
    line_inv E6 as d6 t6 N6. injection E6 as <-.
    eexists. rewrite <- app_assoc. split; [reflexivity|]. split; [reflexivity|].
    intros p [= <-] d' label key [I | []] F L. injection I as <-.
    pick_field.
    + rewrite (N1 L). right. now left.
    + rewrite (N2 L). do 2 right. now left.
    + rewrite (N3 L). do 3 right. now left.
    + rewrite (N4 L). do 4 right. now left.
    + rewrite (N5 L). do 5 right. now left.
    + rewrite (N6 L). do 6 right. now left.
  - inv_ok H. apply contains_false in C. rewrite C.
    exists []. rewrite app_nil_r. repeat split. intros p [=].
Qed.

Lemma add_skills_inv r f f' :
  add_skills r f = Ok f' ->
  exists ext,
    f' = f ++ ext /\
    filter is_section_label ext =
      (if field_present (lit "skills") r then [lit "SKILLS:"] else []).
Proof.
  unfold add_skills, field_present. intros H. bind_inv H as has C.
  destruct has.
  - bind_inv H as skills S. apply contains_subscript in S. rewrite S.
    bind_inv H as hasf HF. bind_inv H as f1 F1. bind_inv H as hasd HD.
    bind_inv H as f2 F2. inv_ok H.
    assert (exists e1, f1 = (f ++ [lit "SKILLS:"]) ++ e1 /\
                       filter is_section_label e1 = []) as [e1 [-> X1]].
    { destruct hasf.
      - bind_inv F1 as fs A. bind_inv F1 as items B.
        now apply for_featured_inv in F1.
      - inv_ok F1. exists []. now rewrite app_nil_r. }
    assert (exists e2, f2 = ((f ++ [lit "SKILLS:"]) ++ e1) ++ e2 /\
                       filter is_section_label e2 = []) as [e2 [-> X2]].
    { destruct hasd.
      - bind_inv F2 as ds A. bind_inv F2 as items B.
        now apply for_descriptions_inv in F2.
      - inv_ok F2. exists []. now rewrite app_nil_r. }
    exists (lit "SKILLS:" :: e1 ++ e2 ++ [[]]).
    split; [now rewrite <- !app_assoc|].
    simpl. rewrite !filter_app, X1, X2. reflexivity.
  - inv_ok H. apply contains_false in C. rewrite C.
    exists []. now rewrite app_nil_r.
Qed.

(** The lines of a formatted resume: the labels among them, and the
    placeholder lines. *)
Lemma format_lines_inv r lines :
  format_lines r = Ok lines ->
  filter is_section_label lines = emitted_labels r /\ placeholders r lines.
Proof.
  unfold format_lines. intros H.
  bind_inv H as f1 A1. bind_inv H as f2 A2. bind_inv H as f3 A3.
  bind_inv H as f4 A4.
  apply add_profile_inv in A1. destruct A1 as [e1 [-> [L1 P1]]].
  apply add_work_inv in A2. destruct A2 as [e2 [-> [L2 P2]]].
  apply add_education_inv in A3. destruct A3 as [e3 [-> [L3 P3]]].
  apply add_skills_inv in A4. destruct A4 as [e4 [-> L4]].
  apply add_projects_inv in H. destruct H as [e5 [-> [L5 P5]]].
  simpl. split.
  - rewrite !filter_app, L1, L2, L3, L4, L5. unfold emitted_labels.
    now rewrite <- !app_assoc.
  - unfold placeholders. repeat split.
    + intros p R. specialize (P1 p R).
      rewrite <- !app_assoc. apply (@placeholders_for_mono _ _ [] _ _ P1).
    + intros l R. specialize (P2 l R).
      rewrite <- !app_assoc. apply (@placeholders_for_mono _ _ e1 _ _ P2).
    + intros l R. specialize (P3 l R).
      rewrite <- !app_assoc. rewrite (app_assoc e1 e2).
      apply (@placeholders_for_mono _ _ (e1 ++ e2) _ _ P3).
    + intros l R. specialize (P5 l R).
      rewrite <- (app_nil_r e5).
      apply (@placeholders_for_mono _ _ (((e1 ++ e2) ++ e3) ++ e4) _ [] P5).
Qed.

(** *** Resumes of the documented shape are formatted *)

Lemma str_scalar v : is_scalar v = true -> exists t, Py.str v = Ok t.
Proof.
  destruct v as [| b | z | nz | s | l | d]; simpl; try discriminate; eauto.
  destruct b; eauto.
Qed.

Lemma field_line_ok label d key :
  scalar_field d key = true -> exists l, field_line label (PDict d) key = Ok l.
Proof.
  unfold scalar_field, field_line. cbn [Py.get bind].
  destruct (Py.lookup key d) as [v|]; intros H.
  - destruct (str_scalar _ H) as [t ->]. simpl. eauto.
  - simpl. eauto.
Qed.

Lemma for_descriptions_ok items :
  forallb is_scalar items = true ->
  forall f, exists f', for_descriptions items f = Ok f'.
Proof.
  induction items as [|desc rest IH]; simpl; intros H f; [eauto|].
  apply andb_true_iff in H. destruct H as [S R].
  destruct (str_scalar _ S) as [t ->]. simpl. now apply IH.
Qed.

Lemma add_descriptions_ok d f :
  optional_list is_scalar (Py.lookup (lit "descriptions") d) = true ->
  exists f', add_descriptions (PDict d) f = Ok f'.
Proof.
  unfold add_descriptions, present_and_truthy, optional_list.
  cbn [Py.contains Py.subscript bind].
  destruct (Py.lookup (lit "descriptions") d) as [v|]; cbn [Py.is_some bind];
    [|eauto].
  destruct (Py.truthy v); cbn [bind negb orb]; [|eauto].
  destruct v; try discriminate. cbn [Py.iter bind]. intros H.
  now apply for_descriptions_ok.
Qed.

Lemma list_section_ok key label (ok : pyval -> bool)
  (loop : list pyval -> list pystr -> result (list pystr)) d f :
  (forall items, forallb ok items = true ->
                forall g, exists g', loop items g = Ok g') ->
  optional_list ok (Py.lookup key d) = true ->
  exists f',
    (cond <- present_and_truthy key (PDict d) ;;
     if cond then
       v <- Py.subscript (PDict d) key ;;
       items <- Py.iter v ;;
       loop items (f ++ [label])
     else Ok f) = Ok f'.
Proof.
  intros Loop. unfold present_and_truthy, optional_list.
  cbn [Py.contains Py.subscript bind].
  destruct (Py.lookup key d) as [v|]; cbn [Py.is_some bind]; [|eauto].
  destruct (Py.truthy v); cbn [bind negb orb]; [|eauto].
  destruct v; try discriminate. cbn [Py.iter bind]. intros H.
  now apply Loop.
Qed.

Ltac split_andb H :=
  repeat match type of H with
  | (_ && _) = true =>
      let A := fresh "A" in
      apply andb_true_iff in H; destruct H as [A H]; split_andb A
  end.

Ltac line_ok label key :=
  match goal with
  | d : list (pystr * pyval) |- _ =>
      let l := fresh "l" in
      let E := fresh "E" in
      destruct (@field_line_ok label d key) as [l E];
      [assumption | rewrite E; cbn [bind]; clear E]
  end.

Lemma for_work_ok exps :
  forallb (wf_entry work_fields) exps = true ->
  forall f, exists f', for_work exps f = Ok f'.
Proof.
  induction exps as [|exp rest IH]; intros H f; [simpl; eauto|].
  cbn [forallb] in H. apply andb_true_iff in H. destruct H as [W R].
  destruct exp; try discriminate. unfold wf_entry in W.
  apply andb_true_iff in W. destruct W as [W D].
  cbn [forallb work_fields snd] in W. split_andb W.
  cbn [for_work].
  line_ok (lit "Company: ") (lit "company").
  line_ok (lit "Job Title: ") (lit "jobTitle").
  line_ok (lit "Date: ") (lit "date").
  destruct (add_descriptions_ok d (f ++ [l; l0; l1]) D) as [f1 ->]. cbn [bind].
  now apply IH.
Qed.

Lemma for_education_ok edus :
  forallb (wf_entry education_fields) edus = true ->
  forall f, exists f', for_education edus f = Ok f'.
Proof.
  induction edus as [|edu rest IH]; intros H f; [simpl; eauto|].
  cbn [forallb] in H. apply andb_true_iff in H. destruct H as [W R].
  destruct edu; try discriminate. unfold wf_entry in W.
  apply andb_true_iff in W. destruct W as [W D].
  cbn [forallb education_fields snd] in W. split_andb W.
  cbn [for_education].
  line_ok (lit "School: ") (lit "school").
  line_ok (lit "Degree: ") (lit "degree").
  line_ok (lit "Date: ") (lit "date").
  destruct (add_descriptions_ok d (f ++ [l; l0; l1]) D) as [f1 ->]. cbn [bind].
  now apply IH.
Qed.

Lemma for_projects_ok projs :
  forallb (wf_entry project_fields) projs = true ->
  forall f, exists f', for_projects projs f = Ok f'.
Proof.
  induction projs as [|proj rest IH]; intros H f; [simpl; eauto|].
  cbn [forallb] in H. apply andb_true_iff in H. destruct H as [W R].
  destruct proj; try discriminate. unfold wf_entry in W.
  apply andb_true_iff in W. destruct W as [W D].
  cbn [forallb project_fields snd] in W. split_andb W.
  cbn [for_projects].
  line_ok (lit "Project: ") (lit "project").
  line_ok (lit "Date: ") (lit "date").
  destruct (add_descriptions_ok d (f ++ [l; l0]) D) as [f1 ->]. cbn [bind].
  now apply IH.
Qed.

Lemma for_featured_ok items :
  forallb wf_skill items = true ->
  forall f, exists f', for_featured items f = Ok f'.
Proof.
  induction items as [|skill rest IH]; intros H f; [simpl; eauto|].
  cbn [forallb] in H. apply andb_true_iff in H. destruct H as [W R].
  destruct skill; try discriminate. unfold wf_skill in W.
  cbn [for_featured Py.get bind].
  destruct (Py.lookup (lit "skill") d) as [x|]; [|now apply IH].
  destruct (Py.truthy x); [|now apply IH].
  cbn [negb orb] in W. destruct (str_scalar _ W) as [t ->]. cbn [bind].
  now apply IH.
Qed.

Lemma add_profile_ok d f :
  wf_profile (Py.lookup (lit "profile") d) = true ->
  exists f', add_profile (PDict d) f = Ok f'.
Proof.
  unfold add_profile, wf_profile. cbn [Py.contains Py.subscript bind].
  destruct (Py.lookup (lit "profile") d) as [p|]; cbn [Py.is_some bind]; [|eauto].
  destruct p as [| | | | | | p]; try discriminate. intros W.
  cbn [forallb profile_fields snd] in W. split_andb W.
  clear d. rename p into d.
  line_ok (lit "Name: ") (lit "name").
  line_ok (lit "Email: ") (lit "email").
  line_ok (lit "Phone: ") (lit "phone").
  line_ok (lit "Location: ") (lit "location").
  line_ok (lit "URL: ") (lit "url").
  line_ok (lit "Summary: ") (lit "summary").
  eauto.
Qed.

Lemma add_skills_ok d f :
  wf_skills (Py.lookup (lit "skills") d) = true ->
  exists f', add_skills (PDict d) f = Ok f'.
Proof.
  unfold add_skills, wf_skills. cbn [Py.contains Py.subscript bind].
  destruct (Py.lookup (lit "skills") d) as [sk|]; cbn [Py.is_some bind]; [|eauto].
  destruct sk as [| | | | | | sk]; try discriminate. intros W.
  apply andb_true_iff in W. destruct W as [F D].
  unfold strict_list in F, D. cbn [Py.contains Py.subscript bind].
  assert (forall g, exists g',
             (if Py.is_some (Py.lookup (lit "featuredSkills") sk)
              then fs <- match Py.lookup (lit "featuredSkills") sk with
                         | Some x => Ok x
                         | None => Raise KeyError
                         end ;;
                   items <- Py.iter fs ;; for_featured items g
              else Ok g) = Ok g') as X.
  { intros g. destruct (Py.lookup (lit "featuredSkills") sk) as [v|];
      cbn [Py.is_some bind]; [|eauto].
    destruct v; try discriminate. cbn [Py.iter bind]. now apply for_featured_ok. }
  destruct (X (f ++ [lit "SKILLS:"])) as [f1 ->]. cbn [bind].
  destruct (Py.lookup (lit "descriptions") sk) as [v|]; cbn [Py.is_some bind];
    [|eauto].
  destruct v; try discriminate. cbn [Py.iter bind].
  destruct (for_descriptions_ok _ D f1) as [f2 ->]. cbn [bind]. eauto.
Qed.

(** A resume of the documented shape is formatted: no exception. *)
Lemma format_lines_ok r :
  wf_resume r = true -> exists lines, format_lines r = Ok lines.
Proof.
  destruct r as [| | | | | | d]; try discriminate. unfold wf_resume. intros W.
  rewrite !andb_true_iff in W.
  destruct W as [[[[Wprofile Wwork] Weducation] Wskills] Wprojects].
  unfold format_lines.
  destruct (add_profile_ok d [] Wprofile) as [f1 ->]. cbn [bind].
  destruct (@list_section_ok (lit "workExperiences") (lit "WORK EXPERIENCE:")
              _ for_work d f1 for_work_ok Wwork) as [f2 E2].
  unfold add_work at 1. rewrite E2. cbn [bind].
  destruct (@list_section_ok (lit "educations") (lit "EDUCATION:")
              _ for_education d f2 for_education_ok Weducation) as [f3 E3].
  unfold add_education at 1. rewrite E3. cbn [bind].
  destruct (add_skills_ok d f3 Wskills) as [f4 ->]. cbn [bind].
  apply (@list_section_ok (lit "projects") (lit "PROJECTS:")
           _ for_projects d f4 for_projects_ok Wprojects).
Qed.

End FormatterFacts.

(* ------------------------------------------------------------------ *)
(** ** The claims about the formatter *)
(* ------------------------------------------------------------------ *)

(** C2, the claim as it stands fails: a profile that is [None] makes the
    formatter raise [AttributeError], a number where the list of work
    experiences is expected makes it raise [TypeError], and a string where
    the list of descriptions is expected is not taken as empty: it gives one
    line per character. *)
Lemma formatter_raises_on_malformed_resume :
  format_resume_for_ai (PDict [(lit "profile", PNone)]) = Raise AttributeError /\
  format_resume_for_ai (PDict [(lit "workExperiences", PInt 5)]) = Raise TypeError /\
  format_lines
    (PDict [(lit "projects",
             PList [PDict [(lit "descriptions", PStr (lit "ab"))]])])
  = Ok [lit "PROJECTS:"; lit "Project: N/A"; lit "Date: N/A";
        lit "Descriptions:"; lit "- a"; lit "- b"; []].
Proof. repeat split; vm_compute; reflexivity. Qed.

(** C2, amended.  For every resume of the documented shape (a dict; the
    profile a dict; each list section absent, false or a list of dicts with
    descriptions absent, false or a list; skills a dict whose parts are
    lists; the values that are printed scalars) the formatter returns its
    lines joined by line feeds and does not raise, and every header field
    that an entry lacks is printed with the placeholder N/A. *)
Theorem formatter_total_on_documented_shape (r : pyval) :
  wf_resume r = true ->
  exists lines,
    format_lines r = Ok lines /\
    format_resume_for_ai r = Ok (join_nl lines) /\
    placeholders r lines.
Proof.
  intros W. destruct (format_lines_ok r W) as [lines E].
  exists lines. split; [assumption|]. split.
  - unfold format_resume_for_ai. now rewrite E.
  - now apply format_lines_inv.
Qed.

Lemma formatter_total_on_documented_shape_witness :
  exists lines,
    format_lines
      (PDict [(lit "profile", PDict [(lit "name", PStr (lit "A"))]);
              (lit "workExperiences",
               PList [PDict [(lit "company", PStr (lit "Acme"));
                             (lit "descriptions", PList [PStr (lit "did X")])]])])
    = Ok lines /\
    format_resume_for_ai
      (PDict [(lit "profile", PDict [(lit "name", PStr (lit "A"))]);
              (lit "workExperiences",
               PList [PDict [(lit "company", PStr (lit "Acme"));
                             (lit "descriptions", PList [PStr (lit "did X")])]])])
    = Ok (join_nl lines) /\
    placeholders
      (PDict [(lit "profile", PDict [(lit "name", PStr (lit "A"))]);
              (lit "workExperiences",
               PList [PDict [(lit "company", PStr (lit "Acme"));
                             (lit "descriptions", PList [PStr (lit "did X")])]])])
      lines.
Proof.
  apply formatter_total_on_documented_shape. vm_compute. reflexivity.
Defined.

(** C7, the claim as it stands fails: a resume whose list of work
    experiences is present and empty is formatted to the empty text, without
    the label of the section; and an entry without descriptions gets no
    placeholder for them, the block is left out. *)
Lemma present_empty_section_has_no_label :
  field_present (lit "workExperiences") (PDict [(lit "workExperiences", PList [])])
  = true /\
  format_resume_for_ai (PDict [(lit "workExperiences", PList [])]) = Ok [] /\
  format_lines (PDict [(lit "workExperiences", PList [PDict []])])
  = Ok [lit "WORK EXPERIENCE:"; lit "Company: N/A"; lit "Job Title: N/A";
        lit "Date: N/A"; []].
Proof. repeat split; vm_compute; reflexivity. Qed.

(** C7, amended.  When the formatter returns, its text is its lines joined
    by line feeds, and the section labels among the lines are, in this
    order and once each: PROFILE when the resume has a profile, WORK
    EXPERIENCE, EDUCATION and PROJECTS when the field is there with a list
    that is not empty, SKILLS when the resume has skills; no other line is a
    label.  Every header field that the profile or an entry of a list
    section lacks is printed with the placeholder N/A. *)
Theorem labels_once_in_fixed_order (r : pyval) (lines : list pystr) :
  format_lines r = Ok lines ->
  format_resume_for_ai r = Ok (join_nl lines) /\
  filter is_section_label lines = emitted_labels r /\
  placeholders r lines.
Proof.
  intros E. split.
  - unfold format_resume_for_ai. now rewrite E.
  - now apply format_lines_inv.
Qed.

Lemma labels_once_in_fixed_order_witness :
  filter is_section_label
    [lit "PROFILE:"; lit "Name: A"; lit "Email: N/A"; lit "Phone: N/A";
     lit "Location: N/A"; lit "URL: N/A"; lit "Summary: N/A"; [];
     lit "SKILLS:"; lit "- Rocq"; []]
  = emitted_labels
      (PDict [(lit "skills", PDict [(lit "descriptions", PList [PStr (lit "Rocq")])]);
              (lit "profile", PDict [(lit "name", PStr (lit "A"))]);
              (lit "projects", PList [])]).
Proof.
  apply (labels_once_in_fixed_order
           (PDict [(lit "skills", PDict [(lit "descriptions", PList [PStr (lit "Rocq")])]);
                   (lit "profile", PDict [(lit "name", PStr (lit "A"))]);
                   (lit "projects", PList [])])).
  vm_compute. reflexivity.
Defined.

(* ================================================================== *)
(** * Properties of the handler *)
(* ================================================================== *)

Import Handler.

(** C8, the claim as it stands fails: the key check comes first, so without
    an API key a body that lacks the job description is answered with 500,
    not 400. *)
Lemma missing_field_without_api_key_is_500 :
  analyze_resume None (PDict [(lit "resume", PDict [])]) (fun _ _ => Reply [])
  = Ok (no_key_response, []) /\
  status no_key_response = 500%Z.
Proof. split; vm_compute; reflexivity. Qed.

(** C8, amended.  When the API key is configured and the JSON body is an
    object that lacks the resume or the job description, the handler answers
    with status 400 and a body that has an error field, and sends nothing to
    the model API. *)
Theorem missing_field_is_bad_request
  (key : pystr) (d : list (pystr * pyval)) (create : model_api) :
  truthy_seq key = true ->
  Py.lookup (lit "resume") d = None \/ Py.lookup (lit "jobDescription") d = None ->
  exists r,
    analyze_resume (Some key) (PDict d) create = Ok (r, []) /\
    status r = 400%Z /\ has_field (lit "error") r = true.
Proof.
  intros K M. exists bad_request_response.
  split; [|split; reflexivity].
  unfold analyze_resume. rewrite K. cbn [negb].
  assert (missing_data (PDict d) = Ok true) as E.
  { unfold missing_data. destruct (Py.truthy (PDict d)); [|reflexivity].
    cbn [negb Py.contains bind].
    destruct (Py.lookup (lit "resume") d); cbn [Py.is_some negb]; [|reflexivity].
    destruct M as [M | M]; [discriminate|]. now rewrite M. }
  unfold try_body. rewrite E. reflexivity.
Qed.

Lemma missing_field_is_bad_request_witness :
  exists r,
    analyze_resume (Some (lit "sk-test"))
      (PDict [(lit "resume", PDict [(lit "profile", PDict [])])])
      (fun _ _ => Reply (lit "SUMMARY: x"))
    = Ok (r, []) /\
    status r = 400%Z /\ has_field (lit "error") r = true.
Proof.
  apply missing_field_is_bad_request.
  - reflexivity.
  - right. reflexivity.
Defined.

(* ================================================================== *)
(** * Further properties of the parser *)
(* ================================================================== *)

Section SearchFacts.

(** The lazy group stops at the first place where the condition holds. *)
Lemma lazy_dotall_spec stop s g :
  lazy_dotall stop s = Some g ->
  exists rest,
    s = g ++ rest /\ stop rest = true /\
    (forall g1 g2, g = g1 ++ g2 -> g2 <> [] -> stop (g2 ++ rest) = false).
Proof.
  revert g. induction s as [|c t IH]; intros g; rewrite lazy_dotall_unfold.
  - destruct (stop []) eqn:S; [|discriminate]. intros [= <-].
    exists []. repeat split; trivial.
    intros g1 g2 E N. destruct g1; destruct g2; try discriminate. congruence.
  - destruct (stop (c :: t)) eqn:S.
    + intros [= <-]. exists (c :: t). repeat split; trivial.
      intros g1 g2 E N. destruct g1; destruct g2; try discriminate. congruence.
    + destruct (lazy_dotall stop t) as [g'|] eqn:L; [|discriminate].
      intros [= <-]. destruct (IH g' eq_refl) as [rest [E [R M]]].
      exists rest. split; [simpl; congruence|]. split; [assumption|].
      intros g1 g2 E' N. destruct g1 as [|a g1].
      * simpl in E'. subst g2. simpl. now rewrite <- E.
      * injection E' as <- E'. now apply (M g1).
Qed.

Lemma lazy_dotall_total stop s :
  stop [] = true -> exists g, lazy_dotall stop s = Some g.
Proof.
  intros E. induction s as [|c t [g IH]]; rewrite lazy_dotall_unfold.
  - rewrite E. eauto.
  - destruct (stop (c :: t)); [eauto|]. rewrite IH. simpl. eauto.
Qed.

(** The search takes the leftmost position where the matcher succeeds. *)
Lemma re_search_spec {A} (f : pystr -> option A) s r :
  re_search f s = Some r ->
  exists pre post,
    s = pre ++ post /\ f post = Some r /\
    (forall p1 p2, pre = p1 ++ p2 -> p2 <> [] -> f (p2 ++ post) = None).
Proof.
  induction s as [|c t IH]; simpl.
  - destruct (f []) eqn:F; [|discriminate]. intros [= ->].
    exists [], []. repeat split; trivial.
    intros p1 p2 E N. destruct p1; destruct p2; try discriminate. congruence.
  - destruct (f (c :: t)) eqn:F.
    + intros [= ->]. exists [], (c :: t). repeat split; trivial.
      intros p1 p2 E N. destruct p1; destruct p2; try discriminate. congruence.
    + intros H. destruct (IH H) as [pre [post [E [P M]]]].
      exists (c :: pre), post. split; [simpl; congruence|]. split; [assumption|].
      intros p1 p2 E' N. destruct p1 as [|a p1].
      * simpl in E'. subst p2. simpl. now rewrite <- E.
      * injection E' as <- E'. now apply (M p1).
Qed.

Lemma re_search_found {A} (f : pystr -> option A) pre post r :
  f post = Some r -> exists r', re_search f (pre ++ post) = Some r'.
Proof.
  intros F. induction pre as [|c pre [r' IH]]; simpl.
  - exists r. now apply re_search_here.
  - destruct (f (c :: pre ++ post)); eauto.
Qed.

Lemma summary_re_none x :
  summary_re x = None -> match_literal_ci SUMMARY_MARK x = None.
Proof.
  unfold summary_re. destruct (match_literal_ci SUMMARY_MARK x) as [rest|];
    [|reflexivity].
  match goal with
  | |- lazy_dotall ?stop rest = None -> _ =>
      destruct (@lazy_dotall_total stop rest eq_refl) as [g ->]
  end.
  discriminate.
Qed.

Lemma experience_re_none x :
  experience_re x = None -> match_literal_ci EXPERIENCE_MARK x = None.
Proof.
  unfold experience_re. destruct (match_literal_ci EXPERIENCE_MARK x) as [rest|];
    [|reflexivity].
  destruct (@lazy_dotall_total at_dollar rest eq_refl) as [g ->]. discriminate.
Qed.

Lemma at_dollar_inv x : at_dollar x = true -> x = [] \/ x = [NL].
Proof.
  destruct x as [|c [|d x]]; simpl; intros H; try discriminate; auto.
  apply N.eqb_eq in H. subst. auto.
Qed.

End SearchFacts.

(** X1. The summary search succeeds exactly when the text holds the
    summary marker.  The span it captures starts right after the leftmost
    occurrence of the marker; the text after the span is empty, a final line
    feed, or starts with the experience marker; and the experience marker
    starts nowhere inside the span. *)
Theorem summary_span_delimited (s : pystr) :
  ((exists span, re_search summary_re s = Some span) <->
   contains_ci SUMMARY_MARK s = true) /\
  (forall span,
      re_search summary_re s = Some span ->
      exists pre mark rest,
        s = pre ++ mark ++ span ++ rest /\
        Forall2 (fun p c => ci_char p c = true) SUMMARY_MARK mark /\
        (forall p1 p2, pre = p1 ++ p2 -> p2 <> [] ->
           match_literal_ci SUMMARY_MARK (p2 ++ mark ++ span ++ rest) = None) /\
        (rest = [] \/ rest = [NL] \/
         exists after, match_literal_ci EXPERIENCE_MARK rest = Some after) /\
        (forall g1 g2, span = g1 ++ g2 -> g2 <> [] ->
           match_literal_ci EXPERIENCE_MARK (g2 ++ rest) = None)).
Proof.
  split.
  - split.
    + intros [span H]. destruct (contains_ci SUMMARY_MARK s) eqn:C; [reflexivity|].
      unfold summary_re in H. rewrite (re_search_marker_absent _ _ _ C) in H.
      discriminate.
    + intros C. apply contains_ci_spec in C.
      destruct C as [pre [mid [post [-> F]]]].
      assert (match_literal_ci SUMMARY_MARK (mid ++ post) = Some post) as M
        by (apply match_literal_ci_spec; eauto).
      assert (exists g, summary_re (mid ++ post) = Some g) as [g G].
      { unfold summary_re. rewrite M. now apply lazy_dotall_total. }
      destruct (re_search_found summary_re pre _ G) as [r' R]. eauto.
  - intros span H. apply re_search_spec in H.
    destruct H as [pre [post [-> [P M]]]].
    unfold summary_re in P.
    destruct (match_literal_ci SUMMARY_MARK post) as [after|] eqn:L; [|discriminate].
    apply match_literal_ci_spec in L. destruct L as [mark [-> F]].
    apply lazy_dotall_spec in P. destruct P as [rest [-> [S N]]].
    exists pre, mark, rest. split; [reflexivity|]. split; [assumption|].
    split; [|split].
    + intros p1 p2 E NE. apply summary_re_none. now apply (M p1).
    + destruct (match_literal_ci EXPERIENCE_MARK rest) as [a|]; [eauto|].
      apply at_dollar_inv in S. tauto.
    + intros g1 g2 E NE. specialize (N g1 g2 E NE).
      destruct (match_literal_ci EXPERIENCE_MARK (g2 ++ rest)); [discriminate|].
      reflexivity.
Qed.

Lemma summary_span_delimited_witness :
  exists pre mark rest,
    lit "Here you go. SUMMARY: Able.
EXPERIENCE: none" = pre ++ mark ++ lit " Able.
" ++ rest /\
    Forall2 (fun p c => ci_char p c = true) SUMMARY_MARK mark /\
    (forall p1 p2, pre = p1 ++ p2 -> p2 <> [] ->
       match_literal_ci SUMMARY_MARK (p2 ++ mark ++ lit " Able.
" ++ rest) = None) /\
    (rest = [] \/ rest = [NL] \/
     exists after, match_literal_ci EXPERIENCE_MARK rest = Some after) /\
    (forall g1 g2, lit " Able.
" = g1 ++ g2 -> g2 <> [] ->
       match_literal_ci EXPERIENCE_MARK (g2 ++ rest) = None).
Proof.
  apply (proj2 (summary_span_delimited (lit "Here you go. SUMMARY: Able.
EXPERIENCE: none"))).
  vm_compute. reflexivity.
Defined.

(** X2. The experience search succeeds exactly when the text holds the
    experience marker.  The span it captures starts right after the leftmost
    occurrence of the marker, also when that occurrence lies in the summary
    paragraph, and runs to the end of the text, leaving out one final line
    feed. *)
Theorem experience_span_delimited (s : pystr) :
  ((exists span, re_search experience_re s = Some span) <->
   contains_ci EXPERIENCE_MARK s = true) /\
  (forall span,
      re_search experience_re s = Some span ->
      exists pre mark rest,
        s = pre ++ mark ++ span ++ rest /\
        Forall2 (fun p c => ci_char p c = true) EXPERIENCE_MARK mark /\
        (forall p1 p2, pre = p1 ++ p2 -> p2 <> [] ->
           match_literal_ci EXPERIENCE_MARK (p2 ++ mark ++ span ++ rest) = None) /\
        (rest = [] \/ rest = [NL]) /\
        (forall g, span = g ++ [NL] -> rest = [NL])).
Proof.
  split.
  - split.
    + intros [span H]. destruct (contains_ci EXPERIENCE_MARK s) eqn:C; [reflexivity|].
      unfold experience_re in H. rewrite (re_search_marker_absent _ _ _ C) in H.
      discriminate.
    + intros C. apply contains_ci_spec in C.
      destruct C as [pre [mid [post [-> F]]]].
      assert (match_literal_ci EXPERIENCE_MARK (mid ++ post) = Some post) as M
        by (apply match_literal_ci_spec; eauto).
      assert (exists g, experience_re (mid ++ post) = Some g) as [g G].
      { unfold experience_re. rewrite M. now apply lazy_dotall_total. }
      destruct (re_search_found experience_re pre _ G) as [r' R]. eauto.
  - intros span H. apply re_search_spec in H.
    destruct H as [pre [post [-> [P M]]]].
    unfold experience_re in P.
    destruct (match_literal_ci EXPERIENCE_MARK post) as [after|] eqn:L;
      [|discriminate].
    apply match_literal_ci_spec in L. destruct L as [mark [-> F]].
    apply lazy_dotall_spec in P. destruct P as [rest [-> [S N]]].
    exists pre, mark, rest. split; [reflexivity|]. split; [assumption|].
    split; [|split].
    + intros p1 p2 E NE. apply experience_re_none. now apply (M p1).
    + now apply at_dollar_inv.
    + intros g E. specialize (N g [NL] E ltac:(discriminate)).
      apply at_dollar_inv in S. destruct S as [-> | ->]; [|reflexivity].
      discriminate.
Qed.

Lemma experience_span_delimited_witness :
  exists pre mark rest,
    lit "SUMMARY: long experience: ten years
EXPERIENCE:
Acme
" = pre ++ mark ++ lit " ten years
EXPERIENCE:
Acme" ++ rest /\
    Forall2 (fun p c => ci_char p c = true) EXPERIENCE_MARK mark /\
    (forall p1 p2, pre = p1 ++ p2 -> p2 <> [] ->
       match_literal_ci EXPERIENCE_MARK (p2 ++ mark ++ lit " ten years
EXPERIENCE:
Acme" ++ rest) = None) /\
    (rest = [] \/ rest = [NL]) /\
    (forall g, lit " ten years
EXPERIENCE:
Acme" = g ++ [NL] -> rest = [NL]).
Proof.
  apply (proj2 (experience_span_delimited (lit "SUMMARY: long experience: ten years
EXPERIENCE:
Acme
"))).
  vm_compute. reflexivity.
Defined.

Section SeveralBlocks.

Variable m : char.
Hypothesis marker : is_marker m = true.
Variable k : nat.

Lemma lstrip_app_space a y : forallb isspace a = true -> lstrip (a ++ y) = lstrip y.
Proof.
  induction a as [|c a IH]; simpl; [reflexivity|].
  destruct (isspace c); [exact IH|discriminate].
Qed.

Lemma rstrip_app_space x w :
  forallb isspace w = true -> ends_nonspace x -> rstrip (x ++ w) = x.
Proof.
  intros W E. unfold rstrip. rewrite rev_app_distr, lstrip_app_space.
  - now apply ends_nonspace_rstrip.
  - rewrite forallb_forall in *. intros c Hc. apply W. now apply in_rev.
Qed.

Lemma strip_app_space c t w :
  isspace c = false -> ends_nonspace (c :: t) -> forallb isspace w = true ->
  strip ((c :: t) ++ w) = c :: t.
Proof.
  intros C E W. unfold strip. simpl app. rewrite lstrip_fix by assumption.
  change (c :: t ++ w) with ((c :: t) ++ w). now apply rstrip_app_space.
Qed.

Lemma clean_block_inv cb :
  clean_block cb = true ->
  clean (fst cb) = true /\ startswith_marker (fst cb) = false /\
  Forall (fun b => clean b = true) (snd cb).
Proof.
  unfold clean_block, header. rewrite !andb_true_iff, negb_true_iff.
  intros [[C S] B]. repeat split; trivial.
  apply Forall_forall. now apply forallb_forall.
Qed.

Lemma company_block_head c bs :
  clean c = true ->
  exists d t, company_block m c bs = d :: t /\ isspace d = false /\
              startswith_marker c = is_marker d.
Proof.
  intros C. destruct (clean_inv _ C) as [[d [t [-> D]]] _].
  unfold company_block. simpl. eauto.
Qed.

Lemma blocks_text_head cb rest :
  clean_block cb = true ->
  exists d t, blocks_text m k (cb :: rest) = d :: t /\
              isspace d = false /\ is_marker d = false.
Proof.
  intros B. destruct (clean_block_inv _ B) as [C [S _]].
  destruct (@company_block_head (fst cb) (snd cb) C) as [d [t [E [D M]]]].
  cbn [blocks_text]. rewrite E. simpl. exists d. eexists.
  split; [reflexivity|]. split; [assumption|congruence].
Qed.

Lemma blocks_text_ends blocks :
  forallb clean_block blocks = true -> blocks <> [] ->
  ends_nonspace (blocks_text m k blocks).
Proof.
  induction blocks as [|cb rest IH]; intros B NE; [congruence|].
  cbn [forallb] in B. apply andb_true_iff in B. destruct B as [B R].
  destruct (clean_block_inv _ B) as [C [_ Bs]].
  cbn [blocks_text]. destruct rest as [|cb2 rest].
  - rewrite app_nil_r. now apply ends_nonspace_block.
  - do 2 apply ends_nonspace_app. apply ends_nonspace_cons.
    apply IH; [assumption|discriminate].
Qed.

Lemma split_companies_lines_app bs y :
  Forall (fun b => ~ In NL b) bs ->
  split_companies (concat (map (fun b => NL :: bullet_line m b) bs) ++ y) =
  match split_companies y with
  | h :: r => (concat (map (fun b => NL :: bullet_line m b) bs) ++ h) :: r
  | [] => [concat (map (fun b => NL :: bullet_line m b) bs)]
  end.
Proof.
  induction 1 as [|b bs Hb _ IH]; cbn [concat map app].
  - destruct (split_companies y) eqn:E; [|reflexivity].
    exfalso; eapply split_companies_nonempty; eauto.
  - rewrite <- app_assoc. rewrite split_companies_cons.
    assert (forall r, split_point NL (bullet_line m b ++ r) = false) as SP
      by (intros r; unfold split_point, bullet_line; simpl;
          now rewrite marker, orb_true_r).
    rewrite SP.
    rewrite split_companies_app by (now apply bullet_line_no_nl).
    rewrite IH. destruct (split_companies y); simpl; now rewrite <- ?app_assoc.
Qed.

Lemma split_companies_block_app c bs y :
  clean c = true -> Forall (fun b => clean b = true) bs ->
  split_companies (company_block m c bs ++ y) =
  match split_companies y with
  | h :: r => (company_block m c bs ++ h) :: r
  | [] => [company_block m c bs]
  end.
Proof.
  intros C B. unfold company_block. rewrite <- app_assoc.
  rewrite split_companies_app by (now destruct (clean_inv _ C) as [_ [_ [_ ?]]]).
  rewrite split_companies_lines_app by (now apply clean_all_no_nl).
  destruct (split_companies y); now rewrite <- ?app_assoc.
Qed.

Lemma split_companies_gap d t :
  isspace d = false -> is_marker d = false ->
  split_companies (repeat NL k ++ NL :: d :: t) =
  repeat NL k :: split_companies (d :: t).
Proof.
  intros D M. induction k as [|n IH].
  - cbn [repeat app]. rewrite split_companies_cons.
    unfold split_point. now rewrite D, M.
  - cbn [repeat app]. rewrite split_companies_cons.
    assert (split_point NL (repeat NL n ++ NL :: d :: t) = false) as SP
      by (destruct n; reflexivity).
    now rewrite SP, IH.
Qed.

(** The entry of a block before the last pass. *)
Let raw_entry (cb : pystr * list pystr) : list experience :=
  match snd cb with
  | [] => []
  | _ :: _ => [{| company := fst cb; bulletPoints := firstn 4 (snd cb) |}]
  end.

Lemma section_entry_block c bs w :
  clean c = true -> Forall (fun b => clean b = true) bs ->
  forallb isspace w = true ->
  section_entry (company_block m c bs ++ w) = raw_entry (c, bs).
Proof.
  intros C B W.
  assert (section_lines (company_block m c bs ++ w) = c :: map (bullet_line m) bs)
    as L.
  { rewrite <- (@section_lines_block m marker c bs C B). unfold section_lines.
    f_equal. rewrite strip_block by assumption.
    destruct (@company_block_head c bs C) as [d [t [E [D _]]]].
    pose proof (@ends_nonspace_block m c bs C B) as End. rewrite E in *.
    now apply strip_app_space. }
  unfold section_entry, section_company, section_bullets. rewrite L.
  cbn [hd skipn]. rewrite collect_bullets_bullet_lines by assumption.
  destruct (clean_inv _ C) as [[a [t [E A]]] [_ [S _]]]. rewrite S.
  unfold raw_entry. cbn [fst snd]. subst c. now destruct bs.
Qed.

Lemma repeat_nl_space n : forallb isspace (repeat NL n) = true.
Proof. induction n; simpl; auto. Qed.

Lemma sections_of_blocks blocks :
  forallb clean_block blocks = true ->
  flat_map section_entry (split_companies (blocks_text m k blocks))
  = flat_map raw_entry blocks.
Proof.
  induction blocks as [|cb rest IH]; intros B; [reflexivity|].
  cbn [forallb] in B. apply andb_true_iff in B. destruct B as [B R].
  destruct (clean_block_inv _ B) as [C [_ Bs]].
  cbn [blocks_text flat_map]. destruct rest as [|cb2 rest].
  - rewrite split_companies_block_app by assumption. cbn [split_companies flat_map].
    rewrite section_entry_block by trivial. now destruct cb.
  - rewrite split_companies_block_app by assumption.
    cbn [forallb] in R. pose proof R as R'. apply andb_true_iff in R'.
    destruct R' as [B2 _].
    destruct (@blocks_text_head cb2 rest B2) as [d [t [E [D M]]]].
    rewrite E, split_companies_gap by assumption. rewrite <- E.
    cbn [flat_map]. rewrite section_entry_block by (trivial; apply repeat_nl_space).
    rewrite IH by assumption. now destruct cb.
Qed.

Lemma company_sections_blocks blocks :
  forallb clean_block blocks = true -> blocks <> [] ->
  company_sections (experience_reply_blocks m k blocks)
  = split_companies (blocks_text m k blocks).
Proof.
  intros B NE. unfold company_sections, experience_reply_blocks.
  pose proof (@blocks_text_ends blocks B NE) as End.
  assert (re_search experience_re (EXPERIENCE_MARK ++ NL :: blocks_text m k blocks)
          = Some (NL :: blocks_text m k blocks)) as R.
  { apply re_search_here. unfold experience_re.
    rewrite match_literal_ci_self by (vm_compute; reflexivity).
    apply lazy_dotall_at_dollar. now apply ends_nonspace_cons. }
  rewrite R. rewrite strip_cons_space by reflexivity.
  destruct blocks as [|cb rest]; [congruence|].
  cbn [forallb] in B. apply andb_true_iff in B. destruct B as [B _].
  destruct (@blocks_text_head cb rest B) as [d [t [E [D _]]]].
  rewrite E in *. now rewrite strip_fix.
Qed.

Lemma remove_special_blocks blocks :
  map (fun exp => {| company := company exp;
                     bulletPoints := map sub_noise (bulletPoints exp) |})
      (flat_map raw_entry blocks)
  = flat_map block_entry blocks.
Proof.
  induction blocks as [|[c bs] rest IH]; [reflexivity|].
  cbn [flat_map]. rewrite map_app, IH. f_equal.
  unfold raw_entry, block_entry. cbn [fst snd]. now destruct bs.
Qed.

Lemma parse_blocks blocks :
  forallb clean_block blocks = true ->
  parse_ai_response (experience_reply_blocks m k blocks) =
  Ok {| summary := sub_noise (extract_summary (experience_reply_blocks m k blocks));
        workExperience := flat_map block_entry blocks |}.
Proof.
  intros B. rewrite parse_ai_response_spec. unfold remove_special.
  cbn [summary workExperience]. do 2 f_equal.
  destruct blocks as [|cb rest] eqn:E; [reflexivity|]. rewrite <- E in *.
  rewrite company_sections_blocks by (trivial; subst; discriminate).
  rewrite sections_of_blocks by assumption. apply remove_special_blocks.
Qed.

End SeveralBlocks.

(** X3. A reply laid out as the prompt asks (the experience marker, then
    for each company its name on a line, one marked line per bullet text,
    and any number of empty lines between companies) is parsed back to the
    companies in their order, each with its first four bullet texts in their
    order; a company without bullet lines gives no entry. *)
Theorem blocks_round_trip
  (m : char) (k : nat) (blocks : list (pystr * list pystr)) :
  is_marker m = true ->
  forallb clean_block blocks = true ->
  exists r,
    parse_ai_response (experience_reply_blocks m k blocks) = Ok r /\
    workExperience r = flat_map block_entry blocks.
Proof.
  intros M B. rewrite (@parse_blocks m M k blocks B). eauto.
Qed.

Lemma blocks_round_trip_witness :
  exists r,
    parse_ai_response
      (experience_reply_blocks BULLET 1
         [(lit "Acme", [lit "built X"; lit "ran Y"]);
          (lit "wrapped line", []);
          (lit "Globex Corp", [lit "a"; lit "b"; lit "c"; lit "d"; lit "e"])])
    = Ok r /\
    workExperience r =
      flat_map block_entry
        [(lit "Acme", [lit "built X"; lit "ran Y"]);
         (lit "wrapped line", []);
         (lit "Globex Corp", [lit "a"; lit "b"; lit "c"; lit "d"; lit "e"])].
Proof.
  apply blocks_round_trip; vm_compute; reflexivity.
Defined.

Section SingleLines.

Lemma split_nl_no_nl s : Forall (fun l => ~ In NL l) (split_nl s).
Proof.
  induction s as [|c t IH]; [constructor; [intros []|constructor]|].
  rewrite split_nl_cons. destruct (c =? NL) eqn:C.
  - constructor; [intros []|assumption].
  - assert (~ In NL [c]) as One.
    { intros [-> | []]. now rewrite N.eqb_refl in C. }
    destruct (split_nl t) as [|h r]; [now repeat constructor|].
    inversion IH; subst. constructor; [|assumption].
    intros [-> | H]; [now rewrite N.eqb_refl in C|auto].
Qed.

Lemma lstrip_incl s c : In c (lstrip s) -> In c s.
Proof.
  intros H. destruct (lstrip_decompose s) as [w [E _]]. rewrite E.
  apply in_or_app. now right.
Qed.

Lemma strip_incl s c : In c (strip s) -> In c s.
Proof.
  intros H. apply lstrip_incl.
  destruct (rstrip_decompose (lstrip s)) as [w [E _]]. rewrite E.
  apply in_or_app. now left.
Qed.

Lemma skipn_incl {A} n (l : list A) x : In x (skipn n l) -> In x l.
Proof.
  intros H. rewrite <- (firstn_skipn n l). apply in_or_app. now right.
Qed.

Lemma firstn_incl {A} n (l : list A) x : In x (firstn n l) -> In x l.
Proof.
  intros H. rewrite <- (firstn_skipn n l). apply in_or_app. now left.
Qed.

Lemma collect_bullets_from_lines lines point :
  In point (collect_bullets lines) ->
  exists line, In line lines /\ point = strip (skipn 1 (strip line)).
Proof.
  induction lines as [|line rest IH]; [intros []|]. cbn [collect_bullets].
  assert (In point (collect_bullets rest) ->
          exists l, In l (line :: rest) /\ point = strip (skipn 1 (strip l))) as K.
  { intros H. destruct (IH H) as [l [I E]]. exists l. split; [now right|assumption]. }
  destruct (startswith_marker (strip line)); [|exact K].
  destruct (truthy_seq (strip (skipn 1 (strip line)))); [|exact K].
  intros [<- | H]; [|now apply K]. exists line. split; [now left|reflexivity].
Qed.

Lemma section_company_line section : ~ In NL (section_company section).
Proof.
  unfold section_company, section_lines. intros H. apply strip_incl in H.
  pose proof (split_nl_no_nl (strip section)) as F.
  destruct (split_nl (strip section)) as [|l0 ls]; [contradiction|].
  inversion F; subst. auto.
Qed.

Lemma section_bullets_lines section :
  Forall (fun b => ~ In NL b) (section_bullets section).
Proof.
  apply Forall_forall. intros b Hb H. unfold section_bullets, section_lines in Hb.
  apply collect_bullets_from_lines in Hb. destruct Hb as [line [I ->]].
  apply strip_incl, skipn_incl, strip_incl in H. apply skipn_incl in I.
  pose proof (split_nl_no_nl (strip section)) as F.
  rewrite Forall_forall in F. now apply (F line).
Qed.

End SingleLines.

(** X4. For every input, each company the parser returns is one line without
    white space at its ends, and each bullet point is one line: neither
    holds a line feed. *)
Theorem companies_and_bullets_are_single_lines (s : pystr) :
  exists r,
    parse_ai_response s = Ok r /\
    Forall (fun e => ~ In NL (company e) /\ strip (company e) = company e /\
                     Forall (fun b => ~ In NL b) (bulletPoints e))
           (workExperience r).
Proof.
  rewrite parse_ai_response_spec. eexists. split; [reflexivity|].
  cbn [remove_special workExperience]. apply Forall_forall. intros e He.
  apply in_map_iff in He. destruct He as [e0 [<- He]]. cbn [company bulletPoints].
  apply entries_of_sections in He. destruct He as [section [_ [C [B _]]]].
  rewrite C, B. split; [apply section_company_line|]. split.
  - unfold section_company. apply trimmed_fix, trimmed_strip.
  - apply Forall_forall. intros b Hb H.
    apply in_map_iff in Hb. destruct Hb as [b0 [<- Hb]].
    unfold sub_noise in H. apply filter_In in H. destruct H as [H _].
    apply firstn_incl in Hb.
    pose proof (section_bullets_lines section) as F.
    rewrite Forall_forall in F. now apply (F b0).
Qed.

(** X5. When the experience section opens with a bullet line instead of a
    company line, the parser takes that first line, marker included, as the
    company name and the bullet lines after it as its bullet points; a
    section made of that one bullet line gives no entry. *)
Theorem bullet_line_first_becomes_company
  (m : char) (b0 : pystr) (bs : list pystr) :
  is_marker m = true -> clean b0 = true ->
  Forall (fun b => clean b = true) bs ->
  exists r,
    parse_ai_response (experience_reply m (bullet_line m b0) bs) = Ok r /\
    workExperience r =
      match bs with
      | [] => []
      | _ :: _ => [{| company := bullet_line m b0;
                      bulletPoints := map sub_noise (firstn 4 bs) |}]
      end.
Proof.
  intros M C0 B.
  assert (clean (bullet_line m b0) = true) as C.
  { destruct (clean_inv _ C0) as [_ [End [_ NoNL]]].
    unfold clean. rewrite !andb_true_iff. repeat split.
    - apply eqb_str_eq. unfold bullet_line. apply strip_fix.
      + now apply is_marker_not_space.
      + now do 2 apply ends_nonspace_cons.
    - apply negb_true_iff.
      destruct (existsb (N.eqb NL) (bullet_line m b0)) eqn:E; [|reflexivity].
      apply existsb_exists in E. destruct E as [x [I E]].
      apply N.eqb_eq in E. subst x.
      now apply (@bullet_line_no_nl m M b0) in I. }
  destruct bs as [|b bs'].
  - rewrite parse_ai_response_spec. eexists. split; [reflexivity|].
    cbn [remove_special workExperience].
    rewrite (@company_sections_single m M _ [] C B). cbn [flat_map].
    unfold section_entry, section_bullets.
    rewrite (@section_lines_block m M _ [] C B).
    cbn [map skipn collect_bullets]. change (truthy_seq (@nil pystr)) with false.
    now rewrite andb_false_r.
  - rewrite (@parse_single_block m M _ (b :: bs') C B); [|discriminate].
    eexists. split; reflexivity.
Qed.

Lemma bullet_line_first_becomes_company_witness :
  exists r,
    parse_ai_response
      (experience_reply HYPHEN (bullet_line HYPHEN (lit "led a team"))
         [lit "cut costs"]) = Ok r /\
    workExperience r =
      [{| company := bullet_line HYPHEN (lit "led a team");
          bulletPoints := map sub_noise (firstn 4 [lit "cut costs"]) |}].
Proof.
  apply (@bullet_line_first_becomes_company HYPHEN (lit "led a team") [lit "cut costs"]).
  - reflexivity.
  - vm_compute. reflexivity.
  - repeat (apply Forall_cons; [vm_compute; reflexivity|]). apply Forall_nil.
Defined.

Section FullReply.

Lemma lazy_dotall_exact stop span rest :
  stop rest = true ->
  (forall g1 g2, span = g1 ++ g2 -> g2 <> [] -> stop (g2 ++ rest) = false) ->
  lazy_dotall stop (span ++ rest) = Some span.
Proof.
  intros R. induction span as [|c span IH]; intros N.
  - simpl app. rewrite lazy_dotall_unfold, R. reflexivity.
  - rewrite lazy_dotall_unfold. rewrite (N [] (c :: span)) by (trivial; discriminate).
    cbn [app]. rewrite IH; [reflexivity|].
    intros g1 g2 E NE. apply (N (c :: g1)); [simpl; congruence|assumption].
Qed.

Lemma re_search_skip {A} (f : pystr -> option A) pre post :
  (forall p1 p2, pre = p1 ++ p2 -> p2 <> [] -> f (p2 ++ post) = None) ->
  re_search f (pre ++ post) = re_search f post.
Proof.
  induction pre as [|c pre IH]; intros N; [reflexivity|].
  pose proof (N [] (c :: pre) eq_refl ltac:(discriminate)) as H0.
  simpl in *. rewrite H0.
  apply IH. intros p1 p2 E NE. apply (N (c :: p1)); [simpl; congruence|assumption].
Qed.

Lemma re_search_cons_none {A} (f : pystr -> option A) c t :
  f (c :: t) = None -> re_search f (c :: t) = re_search f t.
Proof. intros H. simpl. now rewrite H. Qed.

(** No character of the experience marker matches a line feed, so an
    occurrence of the marker that starts in [a] ends in [a]. *)
Lemma marker_before_line_feed a x r :
  match_literal_ci EXPERIENCE_MARK (a ++ NL :: x) = Some r ->
  exists r', match_literal_ci EXPERIENCE_MARK a = Some r'.
Proof.
  assert (forall pat, forallb (fun p => negb (ci_char p NL)) pat = true ->
          forall a, match_literal_ci pat (a ++ NL :: x) = Some r ->
                    exists r', match_literal_ci pat a = Some r') as G.
  { induction pat as [|p pat IH]; intros F b H; [simpl; eauto|].
    cbn [forallb] in F. apply andb_true_iff in F. destruct F as [P F].
    destruct b as [|c b]; simpl in H |- *.
    - apply negb_true_iff in P. rewrite P in H. discriminate.
    - destruct (ci_char p c); [|discriminate]. now apply IH. }
  apply G. vm_compute. reflexivity.
Qed.

Lemma contains_ci_suffix mk p1 p2 r :
  match_literal_ci mk p2 = Some r -> contains_ci mk (p1 ++ p2) = true.
Proof.
  intros H. induction p1 as [|c p1 IH]; simpl.
  - destruct p2; simpl; now rewrite H.
  - destruct (match_literal_ci mk (c :: p1 ++ p2)); [reflexivity|assumption].
Qed.

Lemma paragraph_inv p :
  paragraph p = true ->
  exists c t, p = c :: t /\ isspace c = false /\ ends_nonspace (c :: t).
Proof.
  unfold paragraph. rewrite andb_true_iff, truthy_seq_true, eqb_str_eq.
  intros [NE S]. destruct p as [|c t]; [congruence|]. exists c, t.
  split; [reflexivity|]. apply trimmed_cons_inv. rewrite <- S. apply trimmed_strip.
Qed.

(** The suffixes of the span between the two markers. *)
Lemma span_suffixes p g1 g2 :
  NL :: p ++ [NL; NL] = g1 ++ g2 -> g2 <> [] ->
  (exists t, g2 = NL :: t) \/
  (exists p1 p2, p = p1 ++ p2 /\ p2 <> [] /\ g2 = p2 ++ [NL; NL]).
Proof.
  intros E NE. destruct g1 as [|a g1].
  - left. simpl in E. eauto.
  - injection E as _ E. apply app_eq_app in E. destruct E as [l [[E1 E2] | [E1 E2]]].
    + destruct l as [|x l].
      * left. rewrite E2. simpl. eauto.
      * right. exists g1, (x :: l). repeat split; trivial. discriminate.
    + left. destruct l as [|x l].
      * simpl in E2. subst g2. eauto.
      * injection E2 as -> E2. destruct l as [|y l].
        -- simpl in E2. subst g2. eauto.
        -- injection E2 as -> E2. destruct l; destruct g2; try discriminate.
           congruence.
Qed.

Lemma no_marker_in_span p g1 g2 rest :
  contains_ci EXPERIENCE_MARK p = false ->
  NL :: p ++ [NL; NL] = g1 ++ g2 -> g2 <> [] ->
  match_literal_ci EXPERIENCE_MARK (g2 ++ rest) = None.
Proof.
  intros C E NE. destruct (@span_suffixes p g1 g2 E NE) as [[t ->] | [p1 [p2 [-> [N2 ->]]]]].
  - reflexivity.
  - destruct (match_literal_ci EXPERIENCE_MARK ((p2 ++ [NL; NL]) ++ rest)) eqn:M;
      [|reflexivity].
    rewrite <- app_assoc in M. simpl in M.
    apply marker_before_line_feed in M. destruct M as [r' M].
    rewrite (@contains_ci_suffix EXPERIENCE_MARK p1 p2 r' M) in C. discriminate.
Qed.

Variable m : char.
Hypothesis marker : is_marker m = true.
Variables (k : nat) (p : pystr) (blocks : list (pystr * list pystr)).
Hypothesis para : paragraph p = true.
Hypothesis no_mark : contains_ci EXPERIENCE_MARK p = false.

Lemma full_reply_summary_span :
  re_search summary_re (full_reply m k p blocks) = Some (NL :: p ++ [NL; NL]).
Proof.
  apply re_search_here. unfold summary_re, full_reply.
  rewrite match_literal_ci_self by (vm_compute; reflexivity).
  replace (NL :: p ++ NL :: NL :: experience_reply_blocks m k blocks)
    with ((NL :: p ++ [NL; NL]) ++ experience_reply_blocks m k blocks)
    by (simpl; now rewrite <- app_assoc).
  apply lazy_dotall_exact.
  - unfold experience_reply_blocks.
    now rewrite match_literal_ci_self by (vm_compute; reflexivity).
  - intros g1 g2 E NE. rewrite (@no_marker_in_span p g1 g2 _ no_mark E NE).
    destruct g2 as [|a [|b g2]]; [congruence|reflexivity|reflexivity].
Qed.

Lemma full_reply_experience_search :
  re_search experience_re (full_reply m k p blocks)
  = re_search experience_re (experience_reply_blocks m k blocks).
Proof.
  unfold full_reply.
  replace (NL :: p ++ NL :: NL :: experience_reply_blocks m k blocks)
    with ((NL :: p ++ [NL; NL]) ++ experience_reply_blocks m k blocks)
    by (simpl; now rewrite <- app_assoc).
  change SUMMARY_MARK with [83; 85; 77; 77; 65; 82; 89; 58].
  cbn [app]. do 8 (rewrite re_search_cons_none by reflexivity).
  apply re_search_skip. intros p1 p2 E NE. unfold experience_re.
  now rewrite (@no_marker_in_span p (NL :: p1) p2 _ no_mark (f_equal (cons NL) E) NE).
Qed.

Lemma parse_full_reply :
  forallb clean_block blocks = true ->
  parse_ai_response (full_reply m k p blocks) =
  Ok {| summary := sub_noise (sub_ws_runs false (sub_leading_bullet p));
        workExperience := flat_map block_entry blocks |}.
Proof.
  intros B. pose proof (@parse_blocks m marker k blocks B) as P.
  rewrite parse_ai_response_spec in *. injection P as W.
  unfold remove_special. cbn [summary workExperience]. do 2 f_equal.
  - unfold extract_summary. rewrite full_reply_summary_span.
    destruct (@paragraph_inv p para) as [c [t [-> [C E]]]].
    rewrite strip_cons_space by reflexivity.
    now rewrite (@strip_app_space c t [NL; NL]) by trivial.
  - rewrite <- W. unfold company_sections.
    now rewrite full_reply_experience_search.
Qed.

End FullReply.

(** X6. A reply in the format the prompt asks for (the summary marker, a
    paragraph that does not hold the experience marker, an empty line, then
    the experience section laid out by companies) is parsed to the
    paragraph, cleaned up, as the summary and to the companies in their
    order, each with its first four bullet texts. *)
Theorem full_reply_round_trip
  (m : char) (k : nat) (p : pystr) (blocks : list (pystr * list pystr)) :
  is_marker m = true ->
  paragraph p = true ->
  contains_ci EXPERIENCE_MARK p = false ->
  forallb clean_block blocks = true ->
  parse_ai_response (full_reply m k p blocks) =
  Ok {| summary := sub_noise (sub_ws_runs false (sub_leading_bullet p));
        workExperience := flat_map block_entry blocks |}.
Proof.
  intros M P C B. now apply parse_full_reply.
Qed.

Lemma full_reply_round_trip_witness :
  parse_ai_response
    (full_reply BULLET 1 (lit "Engineer with experience in Y: ten years.")
       [(lit "Acme", [lit "Delivered Y"; lit "Improved X by 20%"]);
        (lit "Globex", [lit "Led a team"])])
  = Ok {| summary :=
            sub_noise (sub_ws_runs false
              (sub_leading_bullet (lit "Engineer with experience in Y: ten years.")));
          workExperience :=
            flat_map block_entry
              [(lit "Acme", [lit "Delivered Y"; lit "Improved X by 20%"]);
               (lit "Globex", [lit "Led a team"])] |}.
Proof.
  apply full_reply_round_trip; vm_compute; reflexivity.
Defined.

(* ================================================================== *)
(** * Further properties of the formatter *)
(* ================================================================== *)

Section Layout.

Lemma str_scalar_text v : is_scalar v = true -> Py.str v = Ok (scalar_text v).
Proof.
  unfold scalar_text. destruct v as [| b | z | nz | s | l | d]; simpl;
    try discriminate; try reflexivity.
  now destruct b.
Qed.

Lemma field_line_layout label d key :
  scalar_field d key = true ->
  field_line label (PDict d) key = Ok (label ++ text_or_na d key).
Proof.
  unfold scalar_field, field_line, text_or_na. cbn [Py.get bind].
  destruct (Py.lookup key d) as [v|]; intros H; [|reflexivity].
  now rewrite (str_scalar_text _ H).
Qed.

Lemma for_descriptions_layout items :
  forallb is_scalar items = true ->
  forall f, for_descriptions items f = Ok (f ++ description_lines items).
Proof.
  induction items as [|desc rest IH]; intros H f.
  - simpl. now rewrite app_nil_r.
  - cbn [forallb] in H. apply andb_true_iff in H. destruct H as [S R].
    cbn [for_descriptions]. rewrite (str_scalar_text _ S). cbn [bind].
    rewrite IH by assumption. now rewrite <- app_assoc.
Qed.

Lemma add_descriptions_layout d f :
  optional_list is_scalar (Py.lookup (lit "descriptions") d) = true ->
  add_descriptions (PDict d) f = Ok (f ++ description_block d).
Proof.
  unfold add_descriptions, present_and_truthy, optional_list, description_block.
  cbn [Py.contains Py.subscript bind].
  destruct (Py.lookup (lit "descriptions") d) as [v|]; cbn [Py.is_some bind];
    [|now rewrite app_nil_r].
  destruct (Py.truthy v) eqn:T; cbn [bind negb orb].
  - destruct v; try discriminate. cbn [Py.iter bind]. intros H.
    rewrite for_descriptions_layout by assumption.
    destruct l; [discriminate|]. now rewrite <- app_assoc.
  - intros _. destruct v as [| | | | | [|x l] |]; try discriminate;
      now rewrite app_nil_r.
Qed.

Ltac line_layout :=
  match goal with
  | H : scalar_field ?d ?key = true |- context [field_line ?label (PDict ?d) ?key] =>
      rewrite (@field_line_layout label d key H); cbn [bind]
  end.

Lemma for_work_layout exps :
  forallb (wf_entry work_fields) exps = true ->
  forall f, for_work exps f = Ok (f ++ flat_map (entry_layout work_fields) exps).
Proof.
  induction exps as [|exp rest IH]; intros H f.
  - simpl. now rewrite app_nil_r.
  - cbn [forallb] in H. apply andb_true_iff in H. destruct H as [W R].
    destruct exp; try discriminate. unfold wf_entry in W.
    apply andb_true_iff in W. destruct W as [W D].
    cbn [forallb work_fields snd] in W. rewrite !andb_true_iff in W.
    destruct W as [W1 [W2 [W3 _]]].
    cbn [for_work]. do 3 line_layout.
    rewrite add_descriptions_layout by assumption. cbn [bind].
    rewrite IH by assumption. cbn [flat_map entry_layout work_fields map fst snd].
    now rewrite <- !app_assoc.
Qed.

Lemma for_education_layout edus :
  forallb (wf_entry education_fields) edus = true ->
  forall f,
    for_education edus f = Ok (f ++ flat_map (entry_layout education_fields) edus).
Proof.
  induction edus as [|edu rest IH]; intros H f.
  - simpl. now rewrite app_nil_r.
  - cbn [forallb] in H. apply andb_true_iff in H. destruct H as [W R].
    destruct edu; try discriminate. unfold wf_entry in W.
    apply andb_true_iff in W. destruct W as [W D].
    cbn [forallb education_fields snd] in W. rewrite !andb_true_iff in W.
    destruct W as [W1 [W2 [W3 _]]].
    cbn [for_education]. do 3 line_layout.
    rewrite add_descriptions_layout by assumption. cbn [bind].
    rewrite IH by assumption. cbn [flat_map entry_layout education_fields map fst snd].
    now rewrite <- !app_assoc.
Qed.

Lemma for_projects_layout projs :
  forallb (wf_entry project_fields) projs = true ->
  forall f,
    for_projects projs f = Ok (f ++ flat_map (entry_layout project_fields) projs).
Proof.
  induction projs as [|proj rest IH]; intros H f.
  - simpl. now rewrite app_nil_r.
  - cbn [forallb] in H. apply andb_true_iff in H. destruct H as [W R].
    destruct proj; try discriminate. unfold wf_entry in W.
    apply andb_true_iff in W. destruct W as [W D].
    cbn [forallb project_fields snd] in W. rewrite !andb_true_iff in W.
    destruct W as [W1 [W2 _]].
    cbn [for_projects]. do 2 line_layout.
    rewrite add_descriptions_layout by assumption. cbn [bind].
    rewrite IH by assumption. cbn [flat_map entry_layout project_fields map fst snd].
    now rewrite <- !app_assoc.
Qed.

(** A list section whose value is a list that is not empty. *)
Lemma list_section_layout key label (ok : pyval -> bool)
  (loop : list pyval -> list pystr -> result (list pystr))
  (layout : pyval -> list pystr) d f entries :
  (forall items, forallb ok items = true ->
                 forall g, loop items g = Ok (g ++ flat_map layout items)) ->
  Py.lookup key d = Some (PList entries) -> entries <> [] ->
  forallb ok entries = true ->
  (cond <- present_and_truthy key (PDict d) ;;
   if cond then
     v <- Py.subscript (PDict d) key ;;
     items <- Py.iter v ;;
     loop items (f ++ [label])
   else Ok f) = Ok (f ++ label :: flat_map layout entries).
Proof.
  intros Loop L NE W. unfold present_and_truthy.
  cbn [Py.contains Py.subscript bind]. rewrite L. cbn [Py.is_some bind Py.truthy].
  destruct entries as [|e rest]; [congruence|]. cbn [truthy_seq is_empty negb bind Py.iter].
  rewrite Loop by assumption. now rewrite <- app_assoc.
Qed.

End Layout.

(** X7. In each of the three list sections (work experience, education,
    projects), when the resume gives a list of entries of the documented
    shape that is not empty, the formatter appends the label of the section
    and then, entry by entry in the order of the list, the header lines (the
    value of each key, or N/A when the key is missing; a null value is
    printed as None), the line Descriptions: followed by one line per
    description in their order when the entry has descriptions, and an empty
    line.  Nothing is dropped, merged or reordered. *)
Theorem list_sections_layout
  (d : list (pystr * pyval)) (f : list pystr) (entries : list pyval) :
  entries <> [] ->
  (Py.lookup (lit "workExperiences") d = Some (PList entries) ->
   forallb (wf_entry work_fields) entries = true ->
   add_work (PDict d) f =
   Ok (f ++ lit "WORK EXPERIENCE:" :: flat_map (entry_layout work_fields) entries)) /\
  (Py.lookup (lit "educations") d = Some (PList entries) ->
   forallb (wf_entry education_fields) entries = true ->
   add_education (PDict d) f =
   Ok (f ++ lit "EDUCATION:" :: flat_map (entry_layout education_fields) entries)) /\
  (Py.lookup (lit "projects") d = Some (PList entries) ->
   forallb (wf_entry project_fields) entries = true ->
   add_projects (PDict d) f =
   Ok (f ++ lit "PROJECTS:" :: flat_map (entry_layout project_fields) entries)).
Proof.
  intros NE. split; [|split]; intros L W.
  - apply (@list_section_layout (lit "workExperiences") (lit "WORK EXPERIENCE:")
             _ for_work _ d f entries for_work_layout L NE W).
  - apply (@list_section_layout (lit "educations") (lit "EDUCATION:")
             _ for_education _ d f entries for_education_layout L NE W).
  - apply (@list_section_layout (lit "projects") (lit "PROJECTS:")
             _ for_projects _ d f entries for_projects_layout L NE W).
Qed.

Lemma list_sections_layout_witness :
  add_work
    (PDict [(lit "workExperiences",
             PList [PDict [(lit "company", PStr (lit "Acme"));
                           (lit "date", PNone);
                           (lit "descriptions", PList [PStr (lit "did X"); PInt 7])];
                    PDict [(lit "jobTitle", PStr (lit "Engineer"));
                           (lit "descriptions", PList [])]])])
    [lit "kept"]
  = Ok ([lit "kept"] ++ lit "WORK EXPERIENCE:" ::
        flat_map (entry_layout work_fields)
          [PDict [(lit "company", PStr (lit "Acme"));
                  (lit "date", PNone);
                  (lit "descriptions", PList [PStr (lit "did X"); PInt 7])];
           PDict [(lit "jobTitle", PStr (lit "Engineer"));
                  (lit "descriptions", PList [])]]).
Proof.
  assert ([PDict [(lit "company", PStr (lit "Acme"));
                  (lit "date", PNone);
                  (lit "descriptions", PList [PStr (lit "did X"); PInt 7])];
           PDict [(lit "jobTitle", PStr (lit "Engineer"));
                  (lit "descriptions", PList [])]] <> []) as NE by discriminate.
  apply (proj1 (@list_sections_layout _ [lit "kept"] _ NE));
    vm_compute; reflexivity.
Defined.

Section ProfileAndSkills.

Lemma for_featured_layout items :
  forallb wf_skill items = true ->
  forall f, for_featured items f = Ok (f ++ flat_map skill_line items).
Proof.
  induction items as [|skill rest IH]; intros H f.
  - simpl. now rewrite app_nil_r.
  - cbn [forallb] in H. apply andb_true_iff in H. destruct H as [W R].
    destruct skill; try discriminate. unfold wf_skill in W.
    cbn [for_featured Py.get bind flat_map skill_line].
    destruct (Py.lookup (lit "skill") d) as [x|]; [|now apply IH].
    destruct (Py.truthy x); [|now apply IH].
    cbn [negb orb] in W. rewrite (str_scalar_text _ W). cbn [bind].
    rewrite IH by assumption. now rewrite <- app_assoc.
Qed.

End ProfileAndSkills.

(** X8. When the resume has a profile that is a dict of scalars, the
    formatter appends the label PROFILE:, then the six lines Name, Email,
    Phone, Location, URL and Summary in this order, each with the value of
    its key or with N/A when the key is missing, then an empty line. *)
Theorem profile_layout
  (d p : list (pystr * pyval)) (f : list pystr) :
  Py.lookup (lit "profile") d = Some (PDict p) ->
  forallb (fun lk => scalar_field p (snd lk)) profile_fields = true ->
  add_profile (PDict d) f =
  Ok (f ++ lit "PROFILE:"
        :: map (fun lk => fst lk ++ text_or_na p (snd lk)) profile_fields ++ [[]]).
Proof.
  intros L W. unfold add_profile. cbn [Py.contains Py.subscript bind].
  rewrite L. cbn [Py.is_some bind].
  cbn [forallb profile_fields snd] in W. rewrite !andb_true_iff in W.
  destruct W as [W1 [W2 [W3 [W4 [W5 [W6 _]]]]]].
  rewrite (@field_line_layout (lit "Name: ") p (lit "name") W1). cbn [bind].
  rewrite (@field_line_layout (lit "Email: ") p (lit "email") W2). cbn [bind].
  rewrite (@field_line_layout (lit "Phone: ") p (lit "phone") W3). cbn [bind].
  rewrite (@field_line_layout (lit "Location: ") p (lit "location") W4). cbn [bind].
  rewrite (@field_line_layout (lit "URL: ") p (lit "url") W5). cbn [bind].
  rewrite (@field_line_layout (lit "Summary: ") p (lit "summary") W6). cbn [bind].
  rewrite <- app_assoc. reflexivity.
Qed.

Lemma profile_layout_witness :
  add_profile
    (PDict [(lit "profile", PDict [(lit "name", PStr (lit "A")); (lit "url", PNone)])])
    []
  = Ok ([] ++ lit "PROFILE:"
          :: map (fun lk => fst lk ++
                    text_or_na [(lit "name", PStr (lit "A")); (lit "url", PNone)] (snd lk))
                 profile_fields ++ [[]]).
Proof.
  apply profile_layout; vm_compute; reflexivity.
Defined.

(** X9. When the resume has skills of the documented shape, the formatter
    appends the label SKILLS:, one line per featured skill in their order,
    leaving out the skills whose name is missing or empty, then one line per
    skill description in their order, then an empty line; a missing list
    adds no line. *)
Theorem skills_layout
  (d sk : list (pystr * pyval)) (f : list pystr) :
  Py.lookup (lit "skills") d = Some (PDict sk) ->
  wf_skills (Some (PDict sk)) = true ->
  add_skills (PDict d) f =
  Ok (f ++ lit "SKILLS:"
        :: flat_map skill_line (items_of (Py.lookup (lit "featuredSkills") sk))
        ++ description_lines (items_of (Py.lookup (lit "descriptions") sk))
        ++ [[]]).
Proof.
  intros L W. unfold add_skills. cbn [Py.contains Py.subscript bind].
  rewrite L. cbn [Py.is_some bind]. unfold wf_skills in W.
  apply andb_true_iff in W. destruct W as [F D].
  unfold strict_list in F, D.
  assert (forall g,
             (if Py.is_some (Py.lookup (lit "featuredSkills") sk)
              then fs <- match Py.lookup (lit "featuredSkills") sk with
                         | Some x => Ok x
                         | None => Raise KeyError
                         end ;;
                   items <- Py.iter fs ;; for_featured items g
              else Ok g)
             = Ok (g ++ flat_map skill_line
                          (items_of (Py.lookup (lit "featuredSkills") sk)))) as X.
  { intros g. destruct (Py.lookup (lit "featuredSkills") sk) as [v|];
      [|simpl; now rewrite app_nil_r].
    destruct v; try discriminate. cbn [Py.is_some bind Py.iter items_of].
    now apply for_featured_layout. }
  cbn [Py.contains Py.subscript bind]. rewrite X. cbn [bind].
  assert (forall g,
             (if Py.is_some (Py.lookup (lit "descriptions") sk)
              then ds <- match Py.lookup (lit "descriptions") sk with
                         | Some x => Ok x
                         | None => Raise KeyError
                         end ;;
                   items <- Py.iter ds ;; for_descriptions items g
              else Ok g)
             = Ok (g ++ description_lines
                          (items_of (Py.lookup (lit "descriptions") sk)))) as Y.
  { intros g. destruct (Py.lookup (lit "descriptions") sk) as [v|];
      [|simpl; now rewrite app_nil_r].
    destruct v; try discriminate. cbn [Py.is_some bind Py.iter items_of].
    now apply for_descriptions_layout. }
  rewrite Y. cbn [bind]. now rewrite <- !app_assoc.
Qed.

Lemma skills_layout_witness :
  add_skills
    (PDict [(lit "skills",
             PDict [(lit "featuredSkills",
                     PList [PDict [(lit "skill", PStr (lit "Rocq")); (lit "rating", PInt 4)];
                            PDict [(lit "skill", PStr []); (lit "rating", PInt 1)];
                            PDict [(lit "rating", PInt 2)]]);
                    (lit "descriptions", PList [PStr (lit "Proofs")])])])
    []
  = Ok ([] ++ lit "SKILLS:"
          :: flat_map skill_line
               [PDict [(lit "skill", PStr (lit "Rocq")); (lit "rating", PInt 4)];
                PDict [(lit "skill", PStr []); (lit "rating", PInt 1)];
                PDict [(lit "rating", PInt 2)]]
          ++ description_lines [PStr (lit "Proofs")] ++ [[]]).
Proof.
  apply (@skills_layout
           [(lit "skills",
             PDict [(lit "featuredSkills",
                     PList [PDict [(lit "skill", PStr (lit "Rocq")); (lit "rating", PInt 4)];
                            PDict [(lit "skill", PStr []); (lit "rating", PInt 1)];
                            PDict [(lit "rating", PInt 2)]]);
                    (lit "descriptions", PList [PStr (lit "Proofs")])])]
           [(lit "featuredSkills",
                     PList [PDict [(lit "skill", PStr (lit "Rocq")); (lit "rating", PInt 4)];
                            PDict [(lit "skill", PStr []); (lit "rating", PInt 1)];
                            PDict [(lit "rating", PInt 2)]]);
                    (lit "descriptions", PList [PStr (lit "Proofs")])] []);
    vm_compute; reflexivity.
Defined.

(** X10. A resume that is not a dict never yields a section: a number, a
    boolean or [None] makes the formatter raise [TypeError] at the first
    membership test, and a string or a list gives either the empty text or
    [TypeError] (when it holds one of the five keys, at the subscription). *)
Theorem non_dict_resume_gives_nothing (r : pyval) :
  (forall d, r <> PDict d) ->
  (format_resume_for_ai r = Ok [] \/ format_resume_for_ai r = Raise TypeError) /\
  ((forall s, r <> PStr s) -> (forall l, r <> PList l) ->
   format_resume_for_ai r = Raise TypeError).
Proof.
  intros ND.
  destruct r as [| b | z | nz | s | l | d];
    try (split; [right; reflexivity | intros; reflexivity]).
  - split; [|intros NS; now destruct (NS s)].
    unfold format_resume_for_ai, format_lines, add_profile, add_work,
      add_education, add_skills, add_projects, present_and_truthy.
    cbn [Py.contains Py.subscript bind].
    destruct (is_substring (lit "profile") s); cbn [bind]; auto.
    destruct (is_substring (lit "workExperiences") s); cbn [bind]; auto.
    destruct (is_substring (lit "educations") s); cbn [bind]; auto.
    destruct (is_substring (lit "skills") s); cbn [bind]; auto.
    destruct (is_substring (lit "projects") s); cbn [bind]; auto.
  - split; [|intros _ NL; now destruct (NL l)].
    unfold format_resume_for_ai, format_lines, add_profile, add_work,
      add_education, add_skills, add_projects, present_and_truthy.
    cbn [Py.contains Py.subscript bind].
    repeat match goal with
           | |- context [existsb ?f l] => destruct (existsb f l); cbn [bind]; auto
           end.
  - now destruct (ND d).
Qed.

Lemma non_dict_resume_gives_nothing_witness :
  format_resume_for_ai (PStr (lit "my profile, my skills")) = Ok [] \/
  format_resume_for_ai (PStr (lit "my profile, my skills")) = Raise TypeError.
Proof.
  apply (@non_dict_resume_gives_nothing (PStr (lit "my profile, my skills"))).
  intros d. discriminate.
Defined.

Section WholeResume.

Lemma list_section_part key label fields
  (loop : list pyval -> list pystr -> result (list pystr)) d f :
  (forall items, forallb (wf_entry fields) items = true ->
     forall g, loop items g = Ok (g ++ flat_map (entry_layout fields) items)) ->
  optional_list (wf_entry fields) (Py.lookup key d) = true ->
  (cond <- present_and_truthy key (PDict d) ;;
   if cond then
     v <- Py.subscript (PDict d) key ;;
     items <- Py.iter v ;;
     loop items (f ++ [label])
   else Ok f) = Ok (f ++ list_part key label fields d).
Proof.
  intros Loop. unfold present_and_truthy, optional_list, list_part.
  cbn [Py.contains Py.subscript bind].
  destruct (Py.lookup key d) as [v|]; cbn [Py.is_some bind];
    [|now rewrite app_nil_r].
  destruct (Py.truthy v) eqn:T; cbn [bind negb orb].
  - destruct v; try discriminate. cbn [Py.iter bind]. intros H.
    rewrite Loop by assumption. destruct l; [discriminate|].
    now rewrite <- app_assoc.
  - intros _. destruct v as [| | | | | [|x l] |]; try discriminate;
      now rewrite app_nil_r.
Qed.

Lemma add_profile_part d f :
  wf_profile (Py.lookup (lit "profile") d) = true ->
  add_profile (PDict d) f = Ok (f ++ profile_part d).
Proof.
  intros W. unfold profile_part.
  destruct (Py.lookup (lit "profile") d) as [v|] eqn:L.
  - destruct v; try discriminate. now apply profile_layout.
  - unfold add_profile. cbn [Py.contains bind]. rewrite L. simpl.
    now rewrite app_nil_r.
Qed.

Lemma add_skills_part d f :
  wf_skills (Py.lookup (lit "skills") d) = true ->
  add_skills (PDict d) f = Ok (f ++ skills_part d).
Proof.
  intros W. unfold skills_part.
  destruct (Py.lookup (lit "skills") d) as [v|] eqn:L.
  - destruct v; try discriminate. now apply skills_layout.
  - unfold add_skills. cbn [Py.contains bind]. rewrite L. simpl.
    now rewrite app_nil_r.
Qed.

End WholeResume.

(** X11. For a resume of the documented shape the text the formatter
    returns is exactly its sections in the fixed order (profile, work
    experience, education, skills, projects), each laid out as above, joined
    by line feeds; sections that are missing, or list sections whose value
    is false, contribute nothing. *)
Theorem document_layout (d : list (pystr * pyval)) :
  wf_resume (PDict d) = true ->
  format_lines (PDict d) = Ok (resume_layout d) /\
  format_resume_for_ai (PDict d) = Ok (join_nl (resume_layout d)).
Proof.
  unfold wf_resume. intros W. rewrite !andb_true_iff in W.
  destruct W as [[[[Wprofile Wwork] Weducation] Wskills] Wprojects].
  assert (format_lines (PDict d) = Ok (resume_layout d)) as E.
  { unfold format_lines, resume_layout.
    rewrite (add_profile_part d [] Wprofile). cbn [bind app].
    unfold add_work at 1.
    rewrite (@list_section_part (lit "workExperiences") (lit "WORK EXPERIENCE:")
               work_fields for_work d _ for_work_layout Wwork). cbn [bind].
    unfold add_education at 1.
    rewrite (@list_section_part (lit "educations") (lit "EDUCATION:")
               education_fields for_education d _ for_education_layout Weducation).
    cbn [bind].
    rewrite (add_skills_part d _ Wskills). cbn [bind].
    unfold add_projects.
    rewrite (@list_section_part (lit "projects") (lit "PROJECTS:")
               project_fields for_projects d _ for_projects_layout Wprojects).
    now rewrite <- !app_assoc. }
  split; [assumption|]. unfold format_resume_for_ai. now rewrite E.
Qed.

Lemma document_layout_witness :
  format_lines
    (PDict [(lit "profile", PDict [(lit "name", PStr (lit "A"))]);
            (lit "workExperiences",
             PList [PDict [(lit "company", PStr (lit "Acme"));
                           (lit "descriptions", PList [PStr (lit "did X")])]]);
            (lit "educations", PList []);
            (lit "projects", PNone)])
  = Ok (resume_layout
          [(lit "profile", PDict [(lit "name", PStr (lit "A"))]);
           (lit "workExperiences",
            PList [PDict [(lit "company", PStr (lit "Acme"));
                          (lit "descriptions", PList [PStr (lit "did X")])]]);
           (lit "educations", PList []);
           (lit "projects", PNone)]).
Proof.
  apply document_layout. vm_compute. reflexivity.
Defined.

(* ================================================================== *)
(** * Further properties of the handler *)
(* ================================================================== *)

Section HandlerFacts.

Lemma analyze_resume_inv key data create r calls :
  analyze_resume key data create = Ok (r, calls) ->
  analyze_case key data create r calls.
Proof.
  unfold analyze_resume. fold (key_configured key).
  destruct (key_configured key) eqn:K; cbn [negb].
  - unfold try_body.
    destruct (missing_data data) as [[|] | e |] eqn:M.
    + intros [= <- <-]. now constructor.
    + destruct (build_prompt data) as [prompt | e |] eqn:B.
      * destruct (create SYSTEM_CONTENT prompt) as [content | message | e] eqn:C.
        -- rewrite parse_ai_response_spec. cbn [bind]. intros [= <- <-].
           eapply Success; eauto. apply parse_ai_response_spec.
        -- intros [= <- <-]. eapply Upstream; eauto.
        -- intros [= <- <-]. eapply CallFault; eauto.
      * intros [= <- <-]. now apply PromptFault.
      * discriminate.
    + intros [= <- <-]. now apply BodyFault.
    + discriminate.
  - intros [= <- <-]. now constructor.
Qed.

Lemma build_prompt_inv data prompt :
  build_prompt data = Ok prompt ->
  exists resume job text job_text,
    resume_field (lit "resume") data = Some resume /\
    resume_field (lit "jobDescription") data = Some job /\
    format_resume_for_ai resume = Ok text /\
    Py.str job = Ok job_text /\
    prompt = user_content text job_text.
Proof.
  unfold build_prompt. intros H.
  bind_inv H as resume R. bind_inv H as job J.
  bind_inv H as text T. bind_inv H as job_text S. inv_ok H.
  apply contains_subscript in R, J.
  exists resume, job, text, job_text. auto.
Qed.

Lemma missing_data_dict d resume job :
  Py.lookup (lit "resume") d = Some resume ->
  Py.lookup (lit "jobDescription") d = Some job ->
  missing_data (PDict d) = Ok false.
Proof.
  intros R J. unfold missing_data.
  destruct d as [|kv d']; [discriminate|].
  cbn [Py.truthy truthy_seq is_empty negb Py.contains bind].
  now rewrite R, J.
Qed.

Lemma build_prompt_dict d resume job text job_text :
  Py.lookup (lit "resume") d = Some resume ->
  Py.lookup (lit "jobDescription") d = Some job ->
  format_resume_for_ai resume = Ok text ->
  Py.str job = Ok job_text ->
  build_prompt (PDict d) = Ok (user_content text job_text).
Proof.
  intros R J T S. unfold build_prompt. cbn [Py.subscript bind].
  rewrite R, J. cbn [bind]. rewrite T. cbn [bind]. now rewrite S.
Qed.

End HandlerFacts.

(** X12. Whenever the handler returns a response, it has sent at most one
    message to the model API, and a message is sent only when the key is
    configured, the body is an object with both fields, the formatter
    returned the text of the resume and the job description has a text: the
    message is then the prompt built from the two.  A response with status
    400 comes without a call, a response with status 200 with one. *)
Theorem model_called_once_after_validation
  (key : option pystr) (data : pyval) (create : model_api)
  (r : response) (calls : list pystr) :
  analyze_resume key data create = Ok (r, calls) ->
  (List.length calls <= 1)%nat /\
  (forall prompt, In prompt calls ->
     key_configured key = true /\
     exists resume job text job_text,
       resume_field (lit "resume") data = Some resume /\
       resume_field (lit "jobDescription") data = Some job /\
       format_resume_for_ai resume = Ok text /\
       Py.str job = Ok job_text /\
       prompt = user_content text job_text) /\
  (status r = 400%Z -> calls = []) /\
  (status r = 200%Z -> List.length calls = 1%nat).
Proof.
  intros H. apply analyze_resume_inv in H.
  destruct H; cbn [List.length status no_key_response bad_request_response
                   failure_response success_response upstream_error_response];
    (split; [lia|]); (split; [|split; intros; try reflexivity; discriminate]);
    intros q I; try contradiction;
    destruct I as [<- | []]; (split; [assumption|]);
    now apply build_prompt_inv.
Qed.

Lemma model_called_once_after_validation_witness :
  (List.length [user_content (lit "PROFILE:
Name: A
Email: N/A
Phone: N/A
Location: N/A
URL: N/A
Summary: N/A
") (lit "needs Y")] <= 1)%nat.
Proof.
  apply (@model_called_once_after_validation
           (Some (lit "sk-test"))
           (PDict [(lit "resume", PDict [(lit "profile", PDict [(lit "name", PStr (lit "A"))])]);
                   (lit "jobDescription", PStr (lit "needs Y"))])
           (fun _ _ => Reply (lit "SUMMARY: fits Y"))
           (success_response {| summary := lit "fits Y"; workExperience := [] |})).
  vm_compute. reflexivity.
Defined.

(** X13. With the key configured, a body that holds a resume the formatter
    accepts and a job description with a text, whatever the model replies is
    parsed and answered with status 200, success true and the parsed
    content: a reply that cannot be read as asked never fails the request.
    Exactly one message goes to the model API, the prompt built from the
    formatted resume and the job description. *)
Theorem reply_is_parsed_and_returned
  (key : pystr) (d : list (pystr * pyval)) (create : model_api)
  (resume job : pyval) (text job_text content : pystr) :
  truthy_seq key = true ->
  Py.lookup (lit "resume") d = Some resume ->
  Py.lookup (lit "jobDescription") d = Some job ->
  format_resume_for_ai resume = Ok text ->
  Py.str job = Ok job_text ->
  create SYSTEM_CONTENT (user_content text job_text) = Reply content ->
  exists t,
    parse_ai_response content = Ok t /\
    analyze_resume (Some key) (PDict d) create
    = Ok (success_response t, [user_content text job_text]) /\
    status (success_response t) = 200%Z.
Proof.
  intros K R J T S C. rewrite parse_ai_response_spec. eexists.
  split; [reflexivity|]. split; [|reflexivity].
  unfold analyze_resume. rewrite K. cbn [negb]. unfold try_body.
  rewrite (missing_data_dict d R J).
  rewrite (build_prompt_dict d R J T S), C, parse_ai_response_spec.
  reflexivity.
Qed.

Lemma reply_is_parsed_and_returned_witness :
  exists t,
    parse_ai_response (lit "Sorry, I cannot help with that.") = Ok t /\
    analyze_resume (Some (lit "sk-test"))
      (PDict [(lit "resume", PDict []); (lit "jobDescription", PStr (lit "needs Y"))])
      (fun _ _ => Reply (lit "Sorry, I cannot help with that."))
    = Ok (success_response t, [user_content [] (lit "needs Y")]) /\
    status (success_response t) = 200%Z.
Proof.
  apply (@reply_is_parsed_and_returned (lit "sk-test")
           [(lit "resume", PDict []); (lit "jobDescription", PStr (lit "needs Y"))]
           (fun _ _ => Reply (lit "Sorry, I cannot help with that."))
           (PDict []) (PStr (lit "needs Y")) [] (lit "needs Y")
           (lit "Sorry, I cannot help with that."));
    reflexivity.
Defined.

(** X14. With the key configured and a body the handler accepts, a failure
    of the model call is answered with status 500 after that one call: an
    OpenAI error with its message after the words OpenAI API error, any
    other exception with its own text; in both, success is false and the
    tailored content is null. *)
Theorem model_failure_is_500
  (key : pystr) (d : list (pystr * pyval)) (create : model_api)
  (resume job : pyval) (text job_text : pystr) :
  truthy_seq key = true ->
  Py.lookup (lit "resume") d = Some resume ->
  Py.lookup (lit "jobDescription") d = Some job ->
  format_resume_for_ai resume = Ok text ->
  Py.str job = Ok job_text ->
  (forall message,
      create SYSTEM_CONTENT (user_content text job_text) = OpenAIError message ->
      analyze_resume (Some key) (PDict d) create
      = Ok ({| status := 500;
               body := [(lit "error", FText (lit "OpenAI API error: " ++ message));
                        (lit "success", FBool false);
                        (lit "tailoredContent", FNone)] |},
            [user_content text job_text])) /\
  (forall e,
      create SYSTEM_CONTENT (user_content text job_text) = Fault e ->
      analyze_resume (Some key) (PDict d) create
      = Ok ({| status := 500;
               body := [(lit "error", FExnText e);
                        (lit "success", FBool false);
                        (lit "tailoredContent", FNone)] |},
            [user_content text job_text])).
Proof.
  intros K R J T S. split; intros x C;
    unfold analyze_resume; rewrite K; cbn [negb]; unfold try_body;
    rewrite (missing_data_dict d R J);
    rewrite (build_prompt_dict d R J T S), C; reflexivity.
Qed.

Lemma model_failure_is_500_witness :
  analyze_resume (Some (lit "sk-test"))
    (PDict [(lit "resume", PDict []); (lit "jobDescription", PStr (lit "needs Y"))])
    (fun _ _ => OpenAIError (lit "quota exceeded"))
  = Ok ({| status := 500;
           body := [(lit "error", FText (lit "OpenAI API error: " ++ lit "quota exceeded"));
                    (lit "success", FBool false);
                    (lit "tailoredContent", FNone)] |},
        [user_content [] (lit "needs Y")]).
Proof.
  apply (proj1 (@model_failure_is_500 (lit "sk-test")
           [(lit "resume", PDict []); (lit "jobDescription", PStr (lit "needs Y"))]
           (fun _ _ => OpenAIError (lit "quota exceeded"))
           (PDict []) (PStr (lit "needs Y")) [] (lit "needs Y")
           eq_refl eq_refl eq_refl eq_refl eq_refl)).
  reflexivity.
Defined.

(** X15. With the key configured and both fields in the body, a resume that
    makes the formatter raise is answered with status 500, the text of the
    exception as the error, success false and null content; nothing is sent
    to the model API. *)
Theorem rejected_resume_is_500_without_call
  (key : pystr) (d : list (pystr * pyval)) (create : model_api)
  (resume job : pyval) (e : exn) :
  truthy_seq key = true ->
  Py.lookup (lit "resume") d = Some resume ->
  Py.lookup (lit "jobDescription") d = Some job ->
  format_resume_for_ai resume = Raise e ->
  analyze_resume (Some key) (PDict d) create
  = Ok ({| status := 500;
           body := [(lit "error", FExnText e);
                    (lit "success", FBool false);
                    (lit "tailoredContent", FNone)] |}, []).
Proof.
  intros K R J F. unfold analyze_resume. rewrite K. cbn [negb]. unfold try_body.
  rewrite (missing_data_dict d R J).
  assert (build_prompt (PDict d) = Raise e) as B.
  { unfold build_prompt. cbn [Py.subscript bind]. rewrite R, J. cbn [bind].
    now rewrite F. }
  now rewrite B.
Qed.

Lemma rejected_resume_is_500_without_call_witness :
  analyze_resume (Some (lit "sk-test"))
    (PDict [(lit "resume", PDict [(lit "profile", PNone)]);
            (lit "jobDescription", PStr (lit "needs Y"))])
    (fun _ _ => Reply (lit "SUMMARY: x"))
  = Ok ({| status := 500;
           body := [(lit "error", FExnText AttributeError);
                    (lit "success", FBool false);
                    (lit "tailoredContent", FNone)] |}, []).
Proof.
  apply (@rejected_resume_is_500_without_call (lit "sk-test")
           [(lit "resume", PDict [(lit "profile", PNone)]);
            (lit "jobDescription", PStr (lit "needs Y"))]
           (fun _ _ => Reply (lit "SUMMARY: x"))
           (PDict [(lit "profile", PNone)]) (PStr (lit "needs Y")) AttributeError);
    reflexivity.
Defined.

(** X16. With the key configured, a JSON body that is not an object never
    reaches the model API: it is answered either with the 400 response or
    with the 500 response for a [TypeError].  A body whose truth value is
    false ([null], [false], 0, the empty string or list) gets the 400; a
    number or [true] gets the 500, because the membership test raises. *)
Theorem non_object_body_is_rejected
  (key : pystr) (data : pyval) (create : model_api) :
  truthy_seq key = true ->
  (forall d, data <> PDict d) ->
  (analyze_resume (Some key) data create = Ok (bad_request_response, []) \/
   analyze_resume (Some key) data create = Ok (failure_response TypeError, [])) /\
  (Py.truthy data = false ->
   analyze_resume (Some key) data create = Ok (bad_request_response, [])) /\
  (Py.truthy data = true -> is_number data = true ->
   analyze_resume (Some key) data create = Ok (failure_response TypeError, [])).
Proof.
  intros K ND. unfold analyze_resume. rewrite K. cbn [negb].
  unfold try_body, missing_data, build_prompt.
  destruct data as [| b | z | nz | s | l | d].
  - repeat split; auto; discriminate.
  - destruct b; repeat split; auto; discriminate.
  - cbn [Py.truthy]. destruct (Z.eqb z 0); repeat split; auto; discriminate.
  - destruct nz; repeat split; auto; discriminate.
  - cbn [Py.truthy Py.contains Py.subscript bind].
    destruct (truthy_seq s); cbn [negb bind];
      [|repeat split; auto; discriminate].
    destruct (is_substring (lit "resume") s); cbn [negb bind];
      [|repeat split; auto; discriminate].
    destruct (is_substring (lit "jobDescription") s); cbn [negb bind];
      repeat split; auto; discriminate.
  - cbn [Py.truthy Py.contains Py.subscript bind].
    destruct (truthy_seq l); cbn [negb bind];
      [|repeat split; auto; discriminate].
    match goal with
    | |- context [existsb ?f l] => destruct (existsb f l)
    end; cbn [negb bind]; [|repeat split; auto; discriminate].
    match goal with
    | |- context [existsb ?f l] => destruct (existsb f l)
    end; cbn [negb bind]; repeat split; auto; discriminate.
  - now destruct (ND d).
Qed.

Lemma non_object_body_is_rejected_witness :
  analyze_resume (Some (lit "sk-test")) (PInt 5) (fun _ _ => Reply [])
  = Ok (failure_response TypeError, []).
Proof.
  apply (@non_object_body_is_rejected (lit "sk-test") (PInt 5) (fun _ _ => Reply [])).
  - reflexivity.
  - intros d. discriminate.
  - reflexivity.
  - reflexivity.
Defined.

(** X17. The health check answers with status 200 and reports under
    api_key_configured the truth value of the key; it reports false exactly
    when the handler of POST /api/analyze answers every request with the
    500 response that asks for the key, without a call to the model API. *)
Theorem health_check_agrees_with_handler (key : option pystr) :
  status (home key) = 200%Z /\
  field_of (lit "api_key_configured") (home key) = Some (FBool (key_configured key)) /\
  (field_of (lit "api_key_configured") (home key) = Some (FBool false) <->
   forall data create, analyze_resume key data create = Ok (no_key_response, [])).
Proof.
  split; [reflexivity|]. split; [reflexivity|].
  change (field_of (lit "api_key_configured") (home key))
    with (Some (FBool (key_configured key))).
  unfold analyze_resume. fold (key_configured key). split.
  - intros [= ->]. reflexivity.
  - intros H. specialize (H PNone (fun _ _ => Reply [])).
    destruct (key_configured key); [|reflexivity]. discriminate.
Qed.

(** X18. The handler lets no exception out.  A response it returns has
    status 200, 400 or 500; its body has an error field exactly when the
    status is not 200; with status 200 the body says success true and holds
    the parse of the text the model replied to the one message sent, and
    otherwise it holds no parsed content. *)
Theorem handler_never_raises
  (key : option pystr) (data : pyval) (create : model_api) :
  (forall e, analyze_resume key data create <> Raise e) /\
  (forall r calls,
      analyze_resume key data create = Ok (r, calls) ->
      (status r = 200 \/ status r = 400 \/ status r = 500)%Z /\
      has_field (lit "error") r = negb (Z.eqb (status r) 200) /\
      (status r = 200%Z ->
       field_of (lit "success") r = Some (FBool true) /\
       exists prompt content t,
         calls = [prompt] /\
         create SYSTEM_CONTENT prompt = Reply content /\
         parse_ai_response content = Ok t /\
         field_of (lit "tailoredContent") r = Some (FTailored t)) /\
      (status r <> 200%Z ->
       forall t, field_of (lit "tailoredContent") r <> Some (FTailored t))).
Proof.
  split.
  - intros e. unfold analyze_resume.
    destruct (negb _); [discriminate|].
    destruct (try_body data create) as [calls [r | e' |]]; discriminate.
  - intros r calls H. apply analyze_resume_inv in H.
    destruct H; (split; [cbn; auto|]); (split; [reflexivity|]);
      (split; [try (intros [=]) | try (intros _ t0; discriminate)]).
    + split; [reflexivity|]. exists prompt, content, t. auto.
    + intros N. now destruct N.
Qed.

Lemma handler_never_raises_witness :
  (status (success_response {| summary := lit "fits Y"; workExperience := [] |}) = 200
   \/ status (success_response {| summary := lit "fits Y"; workExperience := [] |}) = 400
   \/ status (success_response {| summary := lit "fits Y"; workExperience := [] |}) = 500)%Z.
Proof.
  apply (proj2 (handler_never_raises
           (Some (lit "sk-test"))
           (PDict [(lit "resume", PDict []); (lit "jobDescription", PStr (lit "needs Y"))])
           (fun _ _ => Reply (lit "SUMMARY: fits Y")))
           (success_response {| summary := lit "fits Y"; workExperience := [] |})
           [user_content [] (lit "needs Y")]).
  vm_compute. reflexivity.
Defined.
